(** * convert.js: speaker-notes extraction, embedded and verified

    A shallow embedding of [convert.js]: the notes-extraction half
    ([extractTextFromNode], [formatSpan], [formatLine], [extractNotes]) and
    the script around it ([convertToPdf], the main function and the
    argument check, as traces of effects over the answers of [fs], [path],
    [JSZip] and [exec]), together with the
    JavaScript built-ins these functions call ([parseInt],
    [String.prototype.repeat], [String.prototype.trim], [RegExp] tests for
    the two literal patterns, [Array.prototype.sort]) and the part of the
    DOM the code touches ([getElementsByTagName], [getAttribute],
    [textContent]).

    Conventions of the model.
    - A JavaScript string is a [string]; the character with code [n] stands
      for the UTF-16 code unit [n], so the model ranges over the strings
      whose code units are below 256.
    - A JavaScript number is a [number]: [NaN] or an integer.  The integers
      the code computes come from [parseInt] on digit strings; they are kept
      exact (the rounding of integers above 2^53 to a double and the
      engine's limit on the length of a string are outside the model).
    - An exception is a [Throw] in the [result] type; the only exception
      the modelled code can raise is the [RangeError] of [repeat].
    - The archive and the XML parser are collaborators: a package is the
      list of its file entries in the order [Object.keys(zip.files)]
      enumerates them, each with the document the parser returns for it
      (directory entries and a parser that returns no document are outside
      the model). *)

From Stdlib Require Import ZArith Ascii String List Lia Permutation Sorted.
From Stdlib Require Import Decimal DecimalString DecimalN DecimalPos.
From stdpp Require Import base list strings sorting.

Local Open Scope string_scope.
Local Open Scope list_scope.
Local Open Scope Z_scope.

(** ** JavaScript values and built-ins *)

Module JS.

(** Numbers as far as the code produces them. *)
Inductive number :=
| NaN
| Num (z : Z).

Inductive exn :=
| RangeError.

(** Completion of an evaluation: a value, or a thrown exception. *)
Inductive result (A : Type) :=
| Ok (a : A)
| Throw (e : exn).
Arguments Ok {A} a.
Arguments Throw {A} e.

Definition bind {A B} (r : result A) (k : A → result B) : result B :=
  match r with
  | Ok a => k a
  | Throw e => Throw e
  end.

Definition code (c : ascii) : Z := Z.of_N (N_of_ascii c).

(** [WhiteSpace] and [LineTerminator] code units below 256:
    TAB, LF, VT, FF, CR, SP and NBSP. *)
Definition isWhiteSpace (c : ascii) : bool :=
  let n := code c in
  ((9 <=? n) && (n <=? 13)) || (n =? 32) || (n =? 160).

Definition isDigit (c : ascii) : bool :=
  let n := code c in (48 <=? n) && (n <=? 57).

(** Value of a character as a digit of some radix up to 36. *)
Definition digitValue (c : ascii) : option Z :=
  let n := code c in
  if (48 <=? n) && (n <=? 57) then Some (n - 48)
  else if (97 <=? n) && (n <=? 122) then Some (n - 87)
  else if (65 <=? n) && (n <=? 90) then Some (n - 55)
  else None.

Fixpoint trimStart (s : string) : string :=
  match s with
  | String c s' => if isWhiteSpace c then trimStart s' else s
  | EmptyString => s
  end.

(** [trimEnd] by recursion from the right end: a character is dropped
    when it is white space and everything after it was dropped. *)
Fixpoint trimEnd (s : string) : string :=
  match s with
  | String c s' =>
      match trimEnd s' with
      | EmptyString => if isWhiteSpace c then EmptyString else String c EmptyString
      | t => String c t
      end
  | EmptyString => EmptyString
  end.

(** [String.prototype.trim] *)
Definition trim (s : string) : string := trimEnd (trimStart s).

(** The longest prefix of [s] made of digits of radix [R], read as a
    number; [acc] is the value of the digits read so far, [None] before
    the first one. *)
Fixpoint radixDigits (R : Z) (s : string) (acc : option Z) : option Z :=
  match s with
  | String c s' =>
      match digitValue c with
      | Some d =>
          if d <? R then radixDigits R s' (Some (default 0 acc * R + d))
          else acc
      | None => acc
      end
  | EmptyString => acc
  end.

(** [parseInt(string, radix)], after ECMAScript's steps; [radix] is
    [None] when the argument is not given.  The result is the exact
    integer: this is the engine's [parseInt] up to 2^53 in absolute value;
    above, the engine rounds to a double, and to infinity from 2^1024
    on. *)
Definition parseInt (inputString : string) (radix : option Z) : number :=
  let str := trimStart inputString in
  let '(sign, str) :=
    match str with
    | String c rest =>
        if Ascii.eqb c "-" then (-1, rest)
        else if Ascii.eqb c "+" then (1, rest)
        else (1, str)
    | EmptyString => (1, str)
    end in
  let R := default 0 radix in
  if negb (R =? 0) && ((R <? 2) || (36 <? R)) then NaN
  else
    let stripPrefix := (R =? 0) || (R =? 16) in
    let R := if R =? 0 then 10 else R in
    let '(R, str) :=
      if stripPrefix then
        match str with
        | String "0" (String "x" rest) => (16, rest)
        | String "0" (String "X" rest) => (16, rest)
        | _ => (R, str)
        end
      else (R, str) in
    match radixDigits R str None with
    | None => NaN
    | Some mathInt => Num (sign * mathInt)
    end.

(** [ToBoolean] on a number and on a string-or-null. *)
Definition truthy (n : number) : bool :=
  match n with
  | NaN => false
  | Num z => negb (z =? 0)
  end.

Definition truthyStr (v : option string) : bool :=
  match v with
  | None => false
  | Some s => negb (String.eqb s EmptyString)
  end.

(** [ToString] on a string-or-null and on a string-or-undefined. *)
Definition toStringNull (v : option string) : string := default "null" v.
Definition toStringUndefined (v : option string) : string := default "undefined" v.

Fixpoint repeatNat (s : string) (n : nat) : string :=
  match n with
  | O => EmptyString
  | S n' => s +:+ repeatNat s n'
  end.

(** [String.prototype.repeat]: a negative count is a [RangeError].  The
    count is an exact integer and the result has no bound: this is the
    engine's [repeat] as long as the result fits a string of the engine;
    beyond that length, and for a count of infinity, the engine raises a
    [RangeError] as well. *)
Definition repeat (s : string) (count : number) : result string :=
  match count with
  | NaN => Ok EmptyString
  | Num n => if n <? 0 then Throw RangeError else Ok (repeatNat s (Z.to_nat n))
  end.

End JS.

#[global] Instance result_bind : MBind JS.result := λ A B k r, JS.bind r k.
#[global] Instance result_ret : MRet JS.result := @JS.Ok.

(** ** The document tree *)

Module DOM.

(** Nodes as the XML parser builds them.  [Text] stands for text and
    CDATA nodes, [Comment] for comments and processing instructions. *)
#[warnings="-register-all"]
Inductive Node :=
| Element (tagName : string) (attributes : list (string * string)) (childNodes : list Node)
| Text (nodeValue : string)
| Comment (nodeValue : string).

Record Document := mkDocument { docChildNodes : list Node }.

(** A node followed by its descendants, in document order. *)
Fixpoint subtree (n : Node) : list Node :=
  n :: match n with
       | Element _ _ kids => flat_map subtree kids
       | _ => []
       end.

Definition descendants (n : Node) : list Node :=
  match n with
  | Element _ _ kids => flat_map subtree kids
  | _ => []
  end.

Definition isElementNamed (name : string) (n : Node) : bool :=
  match n with
  | Element t _ _ => String.eqb t name
  | _ => false
  end.

(** [base.getElementsByTagName(name)]: the descendant elements of [base]
    (never [base] itself) with that qualified name, in document order. *)
Definition getElementsByTagName (name : string) (base : Node) : list Node :=
  List.filter (isElementNamed name) (descendants base).

Definition docGetElementsByTagName (name : string) (doc : Document) : list Node :=
  List.filter (isElementNamed name) (flat_map subtree (docChildNodes doc)).

Fixpoint lookupAttr (name : string) (attrs : list (string * string)) : option string :=
  match attrs with
  | [] => None
  | (k, v) :: rest => if String.eqb k name then Some v else lookupAttr name rest
  end.

(** [el.getAttribute(name)]; [None] is the falsy value of an absent
    attribute (null, or the empty string in older parsers: the code
    treats the two alike). *)
Definition getAttribute (name : string) (el : Node) : option string :=
  match el with
  | Element _ attrs _ => lookupAttr name attrs
  | _ => None
  end.

(** [node.textContent] *)
Fixpoint textContent (n : Node) : string :=
  match n with
  | Element _ _ kids =>
      fold_right (λ k acc,
                   match k with
                   | Comment _ => acc
                   | _ => textContent k +:+ acc
                   end) EmptyString kids
  | Text v => v
  | Comment v => v
  end.

End DOM.

Import JS DOM.

(** ** formatSpan *)

(** The two accumulators of [formatSpan], [begin] and [end]. *)
Definition tags : Type := string * string.

Definition addTag (tag : string) (st : tags) : tags :=
  (fst st +:+ "<" +:+ tag +:+ ">", "</" +:+ tag +:+ ">" +:+ snd st).

Definition formatSpan (span : Node) : string :=
  let st : tags := (EmptyString, EmptyString) in
  let formatting := head (getElementsByTagName "a:rPr" span) in
  let st :=
    match formatting with
    | Some formatting =>
        let st := if truthy (parseInt (toStringNull (getAttribute "b" formatting)) None)
                  then addTag "b" st else st in
        let st := if truthy (parseInt (toStringNull (getAttribute "i" formatting)) None)
                  then addTag "i" st else st in
        let st := if truthyStr (getAttribute "u" formatting)
                     && negb (bool_decide (getAttribute "u" formatting = Some "none"))
                  then addTag "u" st else st in
        let st := if truthyStr (getAttribute "strike" formatting)
                     && negb (bool_decide (getAttribute "strike" formatting = Some "noStrike"))
                  then addTag "s" st else st in
        st
    | None => st
    end in
  let textContent := textContent <$> head (getElementsByTagName "a:t" span) in
  fst st +:+ toStringUndefined textContent +:+ snd st.

Definition mkRun (attrs : list (string * string)) (text : string) : Node :=
  Element "a:r" [] [Element "a:rPr" attrs []; Element "a:t" [] [Text text]].

(** ** formatLine *)

Definition formatLine (line : Node) : result string :=
  let str := EmptyString in
  let formatting := head (getElementsByTagName "a:pPr" line) in
  str ← match formatting with
        | Some formatting =>
            let indent := parseInt (toStringNull (getAttribute "lvl" formatting)) None in
            if truthy indent then
              tabs ← repeat "&#9;" indent;
              mret (str +:+ tabs +:+ "&#x2022;")
            else mret str
        | None => mret str
        end;
  let spans := getElementsByTagName "a:r" line in
  let str := fold_left (λ str span, str +:+ " " +:+ formatSpan span) spans str in
  mret ("<p>" +:+ str +:+ "</p>").

Definition mkLine (pPr : option (list (string * string))) (runs : list Node) : Node :=
  Element "a:p" [] (match pPr with
                    | Some attrs => [Element "a:pPr" attrs []]
                    | None => []
                    end ++ runs).

(** ** The two patterns of extractNotes *)

Module RegExp.

(** [Canonicalize] of a case-insensitive pattern without the unicode
    flag, on the code units that can equal a canonicalized ASCII pattern
    character: lower-case ASCII letters go to upper case, and no code
    unit from 128 on is mapped to one below 128. *)
Definition canonicalize (c : ascii) : ascii :=
  if (97 <=? code c) && (code c <=? 122)
  then ascii_of_N (N_of_ascii c - 32)
  else c.

(** The characters of [lit] at the head of [s]; the result is what
    follows them. *)
Fixpoint matchLiteral (ignoreCase : bool) (lit s : string) : option string :=
  match lit with
  | EmptyString => Some s
  | String p lit' =>
      match s with
      | String c s' =>
          if (if ignoreCase then Ascii.eqb (canonicalize c) (canonicalize p)
              else Ascii.eqb c p)
          then matchLiteral ignoreCase lit' s'
          else None
      | EmptyString => None
      end
  end.

(** Greedy [[0-9]*]: the longest run of digits at the head of [s], and
    the rest. *)
Fixpoint spanDigits (s : string) : string * string :=
  match s with
  | String c s' =>
      if isDigit c then
        let '(ds, rest) := spanDigits s' in (String c ds, rest)
      else (EmptyString, s)
  | EmptyString => (EmptyString, s)
  end.

(** [/notesSlide[0-9]+/i] tried at the head of [s]. *)
Definition qualifiesAt (s : string) : bool :=
  match matchLiteral true "notesSlide" s with
  | Some rest => negb (String.eqb (fst (spanDigits rest)) EmptyString)
  | None => false
  end.

(** [/notesSlide(\d+)\.xml$/] tried at the head of [s]; the result is
    capture group 1.  The greedy [\d+] never has to give a digit back:
    what follows it in the pattern is a dot. *)
Definition slideMatchAt (s : string) : option string :=
  rest ← matchLiteral false "notesSlide" s;
  let '(ds, rest) := spanDigits rest in
  if String.eqb ds EmptyString then None
  else if String.eqb rest ".xml" then Some ds
  else None.

(** A pattern without the sticky flag is tried at every index, from the
    left. *)
Fixpoint test (matchAt : string → bool) (s : string) : bool :=
  matchAt s ||
  match s with
  | String _ s' => test matchAt s'
  | EmptyString => false
  end.

Fixpoint exec {A} (matchAt : string → option A) (s : string) : option A :=
  match matchAt s with
  | Some m => Some m
  | None =>
      match s with
      | String _ s' => exec matchAt s'
      | EmptyString => None
      end
  end.

End RegExp.

(** ** Array.prototype.sort *)

Module Array.

(** [SortCompare]: a comparator result of [NaN] counts as [+0]. *)
Definition sortCompare {A} (comparefn : A → A → number) (x y : A) : Z :=
  match comparefn x y with
  | NaN => 0
  | Num v => v
  end.

Fixpoint insert {A} (comparefn : A → A → number) (x : A) (l : list A) : list A :=
  match l with
  | [] => [x]
  | y :: l' =>
      if sortCompare comparefn x y <=? 0 then x :: l
      else y :: insert comparefn x l'
  end.

(** The sort is stable (ECMAScript 2019), which fixes its result for a
    consistent comparator: the stable insertion sort. *)
Definition sort {A} (comparefn : A → A → number) (l : list A) : list A :=
  fold_right (insert comparefn) [] l.

End Array.

(** ** extractNotes *)

Record SlideNotes := mkSlideNotes { slide : number; notes : string }.

(** [zip.files] in the order of [Object.keys], each name with the document
    parsed from the entry.  The entries are files whose content the parser
    accepts: for a directory entry [zip.file] gives [null], and on other
    content the parser may give no document, and the code then raises an
    exception of another kind before it returns anything. *)
Definition Package : Type := list (string * Document).

Definition sub (a b : number) : number :=
  match a, b with
  | Num x, Num y => Num (x - y)
  | _, _ => NaN
  end.

(** The inner loop: [slideText += formatLine(lines[i])]. *)
Fixpoint formatLines (lines : list Node) (slideText : string) : result string :=
  match lines with
  | [] => mret slideText
  | line :: lines =>
      formatted ← formatLine line;
      formatLines lines (slideText +:+ formatted)
  end.

Definition slideNumberOf (filename : string) : number :=
  match RegExp.exec RegExp.slideMatchAt filename with
  | Some m1 => parseInt m1 (Some 10)
  | None => Num (-1)
  end.

(** The outer loop over the file names, [acc] being the array [notes]. *)
Fixpoint collectNotes (files : Package) (acc : list SlideNotes) : result (list SlideNotes) :=
  match files with
  | [] => mret acc
  | (filename, dom) :: files =>
      if RegExp.test RegExp.qualifiesAt filename then
        match head (docGetElementsByTagName "p:txBody" dom) with
        | None => collectNotes files acc
        | Some textContent =>
            slideText ← formatLines (getElementsByTagName "a:p" textContent) EmptyString;
            let slideNumber := slideNumberOf filename in
            collectNotes files (acc ++ [{| slide := slideNumber; notes := trim slideText |}])
        end
      else collectNotes files acc
  end.

Definition compareSlides (a b : SlideNotes) : number := sub (slide a) (slide b).

Definition extractNotes (zip : Package) : result (list SlideNotes) :=
  collected ← collectNotes zip [];
  mret (Array.sort compareSlides collected).

Definition mkNotesDoc (lines : list Node) : Document :=
  mkDocument [Element "p:notes" [] [Element "p:txBody" [] lines]].


(** ** Vocabulary of the specification *)

(** The four formatting flags of a run, and the order in which
    [formatSpan] checks them. *)
Inductive Flag := Bold | Italic | Underline | Strikethrough.

#[global] Instance Flag_eq_dec : EqDecision Flag.
Proof. solve_decision. Defined.

Definition canonicalOrder : list Flag := [Bold; Italic; Underline; Strikethrough].

Definition tagOf (f : Flag) : string :=
  match f with
  | Bold => "b"
  | Italic => "i"
  | Underline => "u"
  | Strikethrough => "s"
  end.

Definition attrOf (f : Flag) : string :=
  match f with
  | Bold => "b"
  | Italic => "i"
  | Underline => "u"
  | Strikethrough => "strike"
  end.

(** [nestTags fs text]: [text] inside one tag pair per flag of [fs], the
    first flag of [fs] outermost. *)
Definition nestTags (fs : list Flag) (text : string) : string :=
  fold_right (λ f inner, "<" +:+ tagOf f +:+ ">" +:+ inner +:+ "</" +:+ tagOf f +:+ ">")
             text fs.

(** The condition under which [formatSpan] adds the tag of a flag, read
    off the formatting element. *)
Definition flagSet (formatting : Node) (f : Flag) : bool :=
  match f with
  | Bold => truthy (parseInt (toStringNull (getAttribute "b" formatting)) None)
  | Italic => truthy (parseInt (toStringNull (getAttribute "i" formatting)) None)
  | Underline =>
      truthyStr (getAttribute "u" formatting)
      && negb (bool_decide (getAttribute "u" formatting = Some "none"))
  | Strikethrough =>
      truthyStr (getAttribute "strike" formatting)
      && negb (bool_decide (getAttribute "strike" formatting = Some "noStrike"))
  end.

Definition activeFlags (span : Node) : list Flag :=
  match head (getElementsByTagName "a:rPr" span) with
  | Some formatting => List.filter (flagSet formatting) canonicalOrder
  | None => []
  end.

(** The text payload as [formatSpan] concatenates it. *)
Definition spanText (span : Node) : string :=
  toStringUndefined (textContent <$> head (getElementsByTagName "a:t" span)).

(** An attribute list that sets exactly the flags of [fs], declared in the
    order of [fs]. *)
Definition onValue (f : Flag) : string :=
  match f with
  | Bold => "1"
  | Italic => "1"
  | Underline => "sng"
  | Strikethrough => "sngStrike"
  end.

Definition attrsFor (fs : list Flag) : list (string * string) :=
  (λ f, (attrOf f, onValue f)) <$> fs.

(** The flags as the specification words them: bold and italic by a
    nonzero parsed integer, underline and strikethrough by an attribute
    that is present and differs from its sentinel. *)
Definition specFlag (formatting : Node) (f : Flag) : bool :=
  match f with
  | Bold | Italic =>
      match parseInt (toStringNull (getAttribute (attrOf f) formatting)) None with
      | Num n => negb (n =? 0)
      | NaN => false
      end
  | Underline =>
      match getAttribute "u" formatting with
      | Some v => negb (String.eqb v "none")
      | None => false
      end
  | Strikethrough =>
      match getAttribute "strike" formatting with
      | Some v => negb (String.eqb v "noStrike")
      | None => false
      end
  end.

(** The same with the empty attribute value counted as unset, as the
    truthiness test of the code has it. *)
Definition specFlagNonEmpty (formatting : Node) (f : Flag) : bool :=
  match f with
  | Bold | Italic => specFlag formatting f
  | Underline | Strikethrough =>
      specFlag formatting f
      && match getAttribute (attrOf f) formatting with
         | Some v => negb (String.eqb v EmptyString)
         | None => false
         end
  end.

(** The indent level of a paragraph: the parsed [lvl] attribute of its
    first paragraph-properties element, [NaN] without such an element. *)
Definition indentLevel (line : Node) : number :=
  match head (getElementsByTagName "a:pPr" line) with
  | Some formatting => parseInt (toStringNull (getAttribute "lvl" formatting)) None
  | None => NaN
  end.

Definition tabMarker : string := "&#9;".
Definition bulletMarker : string := "&#x2022;".

(** The indentation prefix in the specification's words. *)
Definition indentPrefix (level : number) : string :=
  match level with
  | Num n => if 0 <? n then repeatNat tabMarker (Z.to_nat n) +:+ bulletMarker else EmptyString
  | NaN => EmptyString
  end.

Fixpoint concatStrings (l : list string) : string :=
  match l with
  | [] => EmptyString
  | s :: l' => s +:+ concatStrings l'
  end.

(** One leading space and the formatted run, for every run in order. *)
Definition runsBody (line : Node) : string :=
  concatStrings ((λ span, " " +:+ formatSpan span) <$> getElementsByTagName "a:r" line).

Definition nonNegative (level : number) : Prop :=
  match level with
  | Num n => 0 ≤ n
  | NaN => True
  end.

(** The body of the outer loop of [extractNotes] for one entry: the
    record it pushes, if any. *)
Definition entryNotes (entry : string * Document) : result (option SlideNotes) :=
  let '(filename, dom) := entry in
  if RegExp.test RegExp.qualifiesAt filename then
    match head (docGetElementsByTagName "p:txBody" dom) with
    | None => mret None
    | Some textContent =>
        slideText ← formatLines (getElementsByTagName "a:p" textContent) EmptyString;
        mret (Some {| slide := slideNumberOf filename; notes := trim slideText |})
    end
  else mret None.

Fixpoint entriesNotes (files : Package) : result (list SlideNotes) :=
  match files with
  | [] => mret []
  | entry :: files =>
      o ← entryNotes entry;
      rest ← entriesNotes files;
      mret (option_list o ++ rest)%list
  end.

Definition isInt (r : SlideNotes) : Prop := ∃ z, slide r = Num z.

(** Ascending numeric order on records. *)
Definition slideLe (a b : SlideNotes) : Prop :=
  match slide a, slide b with
  | Num x, Num y => x ≤ y
  | _, _ => False
  end.

Definition qualifies (filename : string) : bool := RegExp.test RegExp.qualifiesAt filename.


(** A non-empty string of decimal digits is [digits]; two strings that
    differ in the case of ASCII letters only are [equalIgnoringCase]. *)
Fixpoint allDigits (s : string) : bool :=
  match s with
  | EmptyString => true
  | String c s' => isDigit c && allDigits s'
  end.

Definition digits (s : string) : Prop := allDigits s = true ∧ s ≠ EmptyString.

Fixpoint equalIgnoringCase (a b : string) : bool :=
  match a, b with
  | EmptyString, EmptyString => true
  | String x a', String y b' =>
      Ascii.eqb (RegExp.canonicalize x) (RegExp.canonicalize y) && equalIgnoringCase a' b'
  | _, _ => false
  end.

Definition hasNotesBody (dom : Document) : option Node :=
  head (docGetElementsByTagName "p:txBody" dom).

(** Sample packages. *)
Definition plainNotes (text : string) : Document :=
  mkNotesDoc [mkLine None [mkRun [] text]].

Definition packageTwoTen : Package :=
  [("ppt/notesSlides/notesSlide10.xml", plainNotes "ten");
   ("ppt/notesSlides/notesSlide2.xml", plainNotes "two")].


Definition packageTies : Package :=
  [("a/notesSlide1.xml", plainNotes "first");
   ("b/notesSlide1.xml", plainNotes "second")].

Definition packageMixed : Package :=
  [("ppt/notesSlides/notesSlide10.xml", plainNotes "ten");
   ("ppt/notesSlides/NotesSlide7.xml", plainNotes "seven");
   ("ppt/notesSlides/notesSlide2.xml", plainNotes "two")].

Definition sampleRecords : list SlideNotes :=
  [mkSlideNotes (Num 3) "c"; mkSlideNotes (Num (-1)) "x"; mkSlideNotes (Num 10) "j";
   mkSlideNotes (Num 3) "d"; mkSlideNotes (Num (-1)) "y"; mkSlideNotes (Num 2) "b"].

(** ** extractTextFromNode *)

(** A node as [extractTextFromNode] reads it: its type, its value and its
    children, the last two possibly [null]. *)
#[warnings="-register-all"]
Inductive AnyNode :=
| anyNode (nodeType : Z) (nodeValue : option string) (childNodes : option (list AnyNode)).

(** The inner function [walk], with the variable [text] of the enclosing
    function passed through. *)
Fixpoint walk (n : AnyNode) (text : string) : string :=
  match n with
  | anyNode nodeType nodeValue childNodes =>
      let text := if nodeType =? 3 then text +:+ toStringNull nodeValue else text in
      match childNodes with
      | Some kids => fold_left (λ text k, walk k text) kids text
      | None => text
      end
  end.

Definition extractTextFromNode (node : option AnyNode) : string :=
  let text := EmptyString in
  match node with
  | None => text
  | Some node => trim (walk node text)
  end.

(** The values of the nodes of type 3 at and below a node, in document
    order. *)
Fixpoint textNodeValues (n : AnyNode) : list string :=
  match n with
  | anyNode nodeType nodeValue childNodes =>
      (if nodeType =? 3 then [toStringNull nodeValue] else [])
      ++ match childNodes with
         | Some kids => flat_map textNodeValues kids
         | None => []
         end
  end.

(** A document-tree node as the three properties show it, every [Text]
    being a text node proper (type 3, no CDATA section). *)
Fixpoint ofNode (n : Node) : AnyNode :=
  match n with
  | Element _ _ kids => anyNode 1 None (Some (map ofNode kids))
  | Text v => anyNode 3 (Some v) None
  | Comment v => anyNode 8 (Some v) None
  end.

Definition isComment (n : Node) : bool :=
  match n with
  | Comment _ => true
  | _ => false
  end.

(** A string without white space at either end. *)
Fixpoint lastChar (s : string) : option ascii :=
  match s with
  | EmptyString => None
  | String c EmptyString => Some c
  | String _ s' => lastChar s'
  end.

Definition cleanEdges (s : string) : Prop :=
  match s with
  | EmptyString => True
  | String c _ => isWhiteSpace c = false ∧ ∃ d, lastChar s = Some d ∧ isWhiteSpace d = false
  end.

(** ** Paragraphs and records in closed form *)

Definition paragraphText (line : Node) : string :=
  "<p>" +:+ indentPrefix (indentLevel line) +:+ runsBody line +:+ "</p>".

Definition negativeIndent (line : Node) : bool :=
  match indentLevel line with
  | Num n => n <? 0
  | NaN => false
  end.

(** The record an entry stands for when none of its paragraphs fails. *)
Definition recordFor (entry : string * Document) : option SlideNotes :=
  let '(filename, dom) := entry in
  if qualifies filename then
    (λ body, {| slide := slideNumberOf filename;
                notes := concatStrings (paragraphText <$> getElementsByTagName "a:p" body) |})
      <$> hasNotesBody dom
  else None.

(** The paragraphs [extractNotes] formats for an entry. *)
Definition entryLines (entry : string * Document) : list Node :=
  let '(filename, dom) := entry in
  if qualifies filename then
    match hasNotesBody dom with
    | Some body => getElementsByTagName "a:p" body
    | None => []
    end
  else [].

(** The number a string of decimal digits denotes. *)
Definition decimalValue (ds : string) : Z :=
  fold_left (λ a c, a * 10 + (code c - 48)) (list_ascii_of_string ds) 0.

(** The decimal numeral of a natural number, as [String(n)] prints it. *)
Definition decimalOf (n : N) : string :=
  DecimalString.NilEmpty.string_of_uint (N.to_uint n).

(** An entry that gives a record: a qualifying name and a notes body. *)
Definition contributes (entry : string * Document) : bool :=
  qualifies entry.1 && bool_decide (is_Some (hasNotesBody entry.2)).

Definition packageNegative : Package :=
  packageTwoTen
  ++ [("ppt/notesSlides/notesSlide3.xml",
       mkNotesDoc [mkLine None [mkRun [] "fine"];
                   mkLine (Some [("lvl", "-1")]) [mkRun [] "bad"]])].

(** The value of a decimal numeral of the library, read left to right. *)
Fixpoint uintValue (d : uint) (a : Z) : Z :=
  match d with
  | Nil => a
  | D0 d => uintValue d (a * 10)
  | D1 d => uintValue d (a * 10 + 1)
  | D2 d => uintValue d (a * 10 + 2)
  | D3 d => uintValue d (a * 10 + 3)
  | D4 d => uintValue d (a * 10 + 4)
  | D5 d => uintValue d (a * 10 + 5)
  | D6 d => uintValue d (a * 10 + 6)
  | D7 d => uintValue d (a * 10 + 7)
  | D8 d => uintValue d (a * 10 + 8)
  | D9 d => uintValue d (a * 10 + 9)
  end.

(** ** The script around extractNotes *)

Module Script.

(** A value that is thrown, or that a promise is rejected with. *)
Inductive thrown :=
| JsException (e : exn)
| HostFailure (message : string)
| Rejection (reason : string).

(** What a run does to its surroundings, in the order in which it does
    it.  [WriteNotes], [Mkdir], [Exec] and [Rename] record that the call
    was made; the log lines are named, not spelled. *)
Inductive effect :=
| PrintUsage
| Exit (code : Z)
| Mkdir (path : string)
| WriteNotes (path : string) (notes : list SlideNotes)
| LogNotesWritten (path : string)
| LogConverting
| Exec (cmd : string)
| LogStdout (stdout : string)
| Rename (oldPath newPath : string)
| LogPdfSaved (path : string)
| WarnPdfMissing
| LogError (err : thrown)
| Uncaught (err : thrown).

(** The answers of the collaborators [process], [path], [fs], [JSZip] and
    [exec].  A call that can fail answers with the message of its error;
    [exec] answers with the message of its error, if any, and the output.
    [outputDirExists] is [existsSync] at the start, [generatedExists] is
    [existsSync] after the conversion. *)
Record Host := mkHost {
  cwd : string;
  resolve : string → string;
  join : string → string → string;
  basename : string → string → string;
  extname : string → string;
  outputDirExists : string → bool;
  mkdirSync : string → option string;
  readFileSync : string → string + string;
  loadAsync : string → string + Package;
  writeFileSync : string → list SlideNotes → option string;
  exec : string → option string * string;
  generatedExists : string → bool;
  renameSync : string → string → option string
}.

Definition quote : string := String "034" EmptyString.

(** [convertToPdf]: the effects, and the reason if the promise is
    rejected. *)
Definition convertToPdf (h : Host) (filePath outputDir : string) : list effect * option thrown :=
  let cmd := "libreoffice --headless --convert-to pdf " +:+ quote +:+ filePath +:+ quote
             +:+ " --outdir " +:+ quote +:+ outputDir +:+ quote in
  match exec h cmd with
  | (Some message, _) =>
      ([LogConverting; Exec cmd], Some (Rejection ("LibreOffice error: " +:+ message)))
  | (None, stdout) => ([LogConverting; Exec cmd; LogStdout stdout], None)
  end.

(** The asynchronous main function: everything thrown or rejected inside
    is caught and logged. *)
Definition main (h : Host) (inputPath outputPath notesFile pdfFile : string) : list effect :=
  match readFileSync h inputPath with
  | inl message => [LogError (HostFailure message)]
  | inr data =>
      match loadAsync h data with
      | inl message => [LogError (HostFailure message)]
      | inr zip =>
          match extractNotes zip with
          | Throw e => [LogError (JsException e)]
          | Ok notes =>
              WriteNotes notesFile notes
              :: match writeFileSync h notesFile notes with
                 | Some message => [LogError (HostFailure message)]
                 | None =>
                     LogNotesWritten notesFile
                     :: (convertToPdf h inputPath outputPath).1
                     ++ match (convertToPdf h inputPath outputPath).2 with
                        | Some err => [LogError err]
                        | None =>
                            let inputBase := basename h inputPath (extname h inputPath) in
                            let generatedPdf := join h outputPath (inputBase +:+ ".pdf") in
                            if generatedExists h generatedPdf then
                              Rename generatedPdf pdfFile
                              :: match renameSync h generatedPdf pdfFile with
                                 | Some message => [LogError (HostFailure message)]
                                 | None => [LogPdfSaved pdfFile]
                                 end
                            else [WarnPdfMissing]
                        end
                 end
          end
      end
  end.

(** The whole script on the argument vector [process.argv]: fewer than
    three entries end it with the usage line and exit code 1. *)
Definition script (h : Host) (argv : list string) : list effect :=
  match argv with
  | _ :: _ :: inputPath :: rest =>
      let outputPath := if truthyStr (head rest)
                        then resolve h (default EmptyString (head rest))
                        else cwd h in
      let notesFile := join h outputPath "notes.json" in
      let pdfFile := join h outputPath "slides.pdf" in
      if outputDirExists h outputPath then main h inputPath outputPath notesFile pdfFile
      else
        Mkdir outputPath
        :: match mkdirSync h outputPath with
           | Some message => [Uncaught (HostFailure message)]
           | None => main h inputPath outputPath notesFile pdfFile
           end
  | _ => [PrintUsage; Exit 1]
  end.


(** [a] occurs before [b] in a trace. *)
Definition precedes (a b : effect) (trace : list effect) : Prop :=
  ∃ l1 l2 l3, trace = l1 ++ a :: l2 ++ b :: l3.

(** A host on which everything succeeds, around a given package. *)
Definition sampleHost (zip : Package) (error : option string) : Host :=
  {| cwd := "/work";
     resolve := λ p, "/work/" +:+ p;
     join := λ a b, a +:+ "/" +:+ b;
     basename := λ p _, "deck";
     extname := λ _, ".pptx";
     outputDirExists := λ _, false;
     mkdirSync := λ _, None;
     readFileSync := λ _, inr "bytes";
     loadAsync := λ _, inr zip;
     writeFileSync := λ _ _, None;
     exec := λ _, (error, "done");
     generatedExists := λ _, true;
     renameSync := λ _ _, None |}.

End Script.

(** ** Where the model is the engine *)

(** A length that every engine running the script allows for a string
    (2^28 - 16 code units, the smallest limit of V8).  A string that
    [fitsString] is built without a [RangeError]: all that is concatenated
    on the way is part of it. *)
Definition maxStringLength : Z := 2 ^ 28 - 16.

Definition fitsString (s : string) : Prop :=
  Z.of_nat (String.length s) ≤ maxStringLength.

(** The integers up to which a double is exact, and the number of decimal
    digits up to which a numeral denotes a finite double. *)
Definition maxExactInteger : Z := 2 ^ 53.

Definition finiteDigits (ds : string) : Prop := (String.length ds ≤ 308)%nat.

(** * Properties *)

(** ** Strings *)

Section Strings.

Lemma string_app_assoc (a b c : string) : (a +:+ b) +:+ c = a +:+ b +:+ c.
Proof.
  induction a as [|x a IH]; [reflexivity|].
  change (String x ((a +:+ b) +:+ c) = String x (a +:+ b +:+ c)).
  by rewrite IH.
Qed.

Lemma string_app_nil_r (a : string) : a +:+ EmptyString = a.
Proof.
  induction a as [|x a IH]; [reflexivity|].
  change (String x (a +:+ EmptyString) = String x a).
  by rewrite IH.
Qed.

Lemma string_length_app (a b : string) :
  String.length (a +:+ b) = (String.length a + String.length b)%nat.
Proof.
  induction a as [|x a IH]; [reflexivity|].
  change (S (String.length (a +:+ b)) = S (String.length a + String.length b)).
  by rewrite IH.
Qed.

End Strings.

(** ** formatSpan *)

Section FormatSpan.

Lemma formatSpan_closed (span : Node) :
  formatSpan span = nestTags (activeFlags span) (spanText span).
Proof.
  unfold formatSpan, activeFlags, spanText.
  generalize (toStringUndefined (textContent <$> head (getElementsByTagName "a:t" span))).
  intros text.
  destruct (head (getElementsByTagName "a:rPr" span)) as [formatting|];
    [|cbv [fst snd nestTags fold_right]; by rewrite string_app_nil_r].
  unfold canonicalOrder, flagSet. cbn [List.filter].
  destruct (truthy (parseInt (toStringNull (getAttribute "b" formatting)) None));
    destruct (truthy (parseInt (toStringNull (getAttribute "i" formatting)) None));
    destruct (truthyStr (getAttribute "u" formatting)
              && negb (bool_decide (getAttribute "u" formatting = Some "none")));
    destruct (truthyStr (getAttribute "strike" formatting)
              && negb (bool_decide (getAttribute "strike" formatting = Some "noStrike")));
    cbv [addTag fst snd nestTags fold_right tagOf];
    rewrite ?string_app_assoc, ?string_app_nil_r; reflexivity.
Qed.

Lemma lookupAttr_Some_elem name attrs v :
  lookupAttr name attrs = Some v → (name, v) ∈ attrs.
Proof.
  induction attrs as [|[k w] attrs IH]; [done|]. cbn [lookupAttr].
  destruct (String.eqb_spec k name) as [->|Hne].
  - intros [= ->]. left.
  - intros H. right. by apply IH.
Qed.

Lemma lookupAttr_None name attrs :
  lookupAttr name attrs = None ↔ name ∉ attrs.*1.
Proof.
  induction attrs as [|[k w] attrs IH]; cbn [lookupAttr].
  - split; [intros _; apply not_elem_of_nil|done].
  - rewrite fmap_cons, not_elem_of_cons. cbn [fst].
    destruct (String.eqb_spec k name) as [->|Hne].
    + split; [done|]. intros [Hne _]. by destruct Hne.
    + rewrite IH. split; [by split|tauto].
Qed.

Lemma lookupAttr_elem name attrs v :
  NoDup attrs.*1 → (name, v) ∈ attrs → lookupAttr name attrs = Some v.
Proof.
  induction attrs as [|[k w] attrs IH]; [by intros _ ?%elem_of_nil|].
  rewrite fmap_cons, NoDup_cons. cbn [fst lookupAttr]. intros [Hk Hnd] Hin.
  apply elem_of_cons in Hin as [[= <- <-]|Hin].
  - by rewrite String.eqb_refl.
  - destruct (String.eqb_spec k name) as [->|Hne]; [|by apply IH].
    destruct Hk. by apply (list_elem_of_fmap_2' fst attrs (name, v)).
Qed.

(** Attribute lookup does not see the order of declaration. *)
Lemma lookupAttr_perm name attrs attrs' :
  NoDup attrs.*1 → attrs ≡ₚ attrs' → lookupAttr name attrs' = lookupAttr name attrs.
Proof.
  intros Hnd Hp.
  destruct (lookupAttr name attrs) as [v|] eqn:E.
  - apply lookupAttr_elem.
    + by rewrite <- Hp.
    + rewrite <- Hp. by apply lookupAttr_Some_elem.
  - apply lookupAttr_None. rewrite <- Hp. by apply lookupAttr_None.
Qed.

Lemma activeFlags_mkRun attrs text :
  activeFlags (mkRun attrs text) = List.filter (flagSet (Element "a:rPr" attrs [])) canonicalOrder.
Proof. reflexivity. Qed.

Lemma spanText_mkRun attrs text : spanText (mkRun attrs text) = text.
Proof. apply string_app_nil_r. Qed.

Lemma flagSet_perm attrs attrs' f :
  NoDup attrs.*1 → attrs ≡ₚ attrs' →
  flagSet (Element "a:rPr" attrs' []) f = flagSet (Element "a:rPr" attrs []) f.
Proof.
  intros Hnd Hp. destruct f; unfold flagSet, getAttribute;
    by rewrite (lookupAttr_perm _ attrs attrs').
Qed.

Lemma lookup_attrsFor f fs :
  lookupAttr (attrOf f) (attrsFor fs) = if bool_decide (f ∈ fs) then Some (onValue f) else None.
Proof.
  induction fs as [|g fs IH]; [done|].
  unfold attrsFor. rewrite fmap_cons. cbn [lookupAttr]. fold (attrsFor fs).
  destruct (decide (g = f)) as [->|Hne].
  - rewrite String.eqb_refl, bool_decide_eq_true_2; [done|left].
  - replace (String.eqb (attrOf g) (attrOf f)) with false
      by (by destruct g, f).
    rewrite IH. apply (f_equal (λ b : bool, if b then _ else _)).
    apply bool_decide_ext. rewrite elem_of_cons.
    split; [by right|]. intros [->|?]; [by destruct Hne|done].
Qed.

Lemma flagSet_attrsFor fs f :
  flagSet (Element "a:rPr" (attrsFor fs) []) f = bool_decide (f ∈ fs).
Proof.
  pose proof (lookup_attrsFor f fs) as H.
  destruct f; unfold flagSet, getAttribute; cbn [attrOf] in H; rewrite H;
    by case_bool_decide.
Qed.

Lemma filter_sublist {A} (f : A → bool) (l : list A) : List.filter f l `sublist_of` l.
Proof.
  induction l as [|x l IH]; cbn [List.filter]; [constructor|].
  destruct (f x); by constructor.
Qed.

Lemma activeFlags_sublist span : activeFlags span `sublist_of` canonicalOrder.
Proof.
  unfold activeFlags. destruct (head _); [apply filter_sublist|apply sublist_nil_l].
Qed.

Lemma flagSet_spec formatting f : flagSet formatting f = specFlagNonEmpty formatting f.
Proof.
  destruct f; unfold flagSet, specFlagNonEmpty, specFlag, truthyStr; cbn [attrOf];
    try reflexivity.
  - destruct (getAttribute "u" formatting) as [v|]; [|done].
    case_bool_decide as Hv; destruct (String.eqb_spec v "none");
      destruct (String.eqb_spec v EmptyString); simplify_eq; done.
  - destruct (getAttribute "strike" formatting) as [v|]; [|done].
    case_bool_decide as Hv; destruct (String.eqb_spec v "noStrike");
      destruct (String.eqb_spec v EmptyString); simplify_eq; done.
Qed.

Lemma nestTags_length fs text :
  String.length (nestTags fs text)
  = (String.length (nestTags fs EmptyString) + String.length text)%nat.
Proof.
  induction fs as [|f fs IH]; [done|].
  cbn [nestTags fold_right]. fold (nestTags fs text). fold (nestTags fs EmptyString).
  rewrite !string_length_app, IH. lia.
Qed.

End FormatSpan.

(** C1. For every run, [formatSpan] returns the text payload inside one tag
    pair per set flag, the pairs nested bold, italic, underline,
    strikethrough from the outside in.  This holds for every subset of the
    four flags and for every order in which the attributes are declared;
    the run with bold and italic both "1" and text "Hello" formats to
    "<b><i>Hello</i></b>". *)
Theorem formatSpan_canonical_nesting :
  (∀ span, formatSpan span = nestTags (activeFlags span) (spanText span)
           ∧ activeFlags span `sublist_of` canonicalOrder)
  ∧ (∀ (fs : list Flag) text,
       formatSpan (mkRun (attrsFor fs) text)
       = nestTags (List.filter (λ f, bool_decide (f ∈ fs)) canonicalOrder) text)
  ∧ (∀ attrs attrs' text, NoDup attrs.*1 → attrs ≡ₚ attrs' →
       formatSpan (mkRun attrs' text) = formatSpan (mkRun attrs text))
  ∧ formatSpan (mkRun [("b", "1"); ("i", "1")] "Hello") = "<b><i>Hello</i></b>"
  ∧ formatSpan (mkRun [("i", "1"); ("b", "1")] "Hello") = "<b><i>Hello</i></b>".
Proof.
  split; [|split; [|split; [|split]]]; try reflexivity.
  - intros span. split; [apply formatSpan_closed|apply activeFlags_sublist].
  - intros fs text.
    rewrite formatSpan_closed, activeFlags_mkRun, spanText_mkRun.
    f_equal. apply List.filter_ext. intros f. apply flagSet_attrsFor.
  - intros attrs attrs' text Hnd Hp.
    rewrite !formatSpan_closed, !activeFlags_mkRun, !spanText_mkRun.
    f_equal. apply List.filter_ext. intros f. by apply flagSet_perm.
Qed.

Lemma formatSpan_canonical_nesting_witness :
  NoDup [("u", "sng"); ("b", "1"); ("strike", "dblStrike")].*1
  ∧ [("u", "sng"); ("b", "1"); ("strike", "dblStrike")]
      ≡ₚ [("strike", "dblStrike"); ("u", "sng"); ("b", "1")]
  ∧ formatSpan (mkRun [("strike", "dblStrike"); ("u", "sng"); ("b", "1")] "Hello")
    = formatSpan (mkRun [("u", "sng"); ("b", "1"); ("strike", "dblStrike")] "Hello").
Proof.
  assert (NoDup [("u", "sng"); ("b", "1"); ("strike", "dblStrike")].*1) as Hnd
    by (apply (bool_decide_unpack _); vm_compute; exact I).
  assert ([("u", "sng"); ("b", "1"); ("strike", "dblStrike")]
            ≡ₚ [("strike", "dblStrike"); ("u", "sng"); ("b", "1")]) as Hp
    by (etrans; [apply perm_skip, perm_swap|apply perm_swap]).
  split; [exact Hnd|split; [exact Hp|]].
  exact (proj1 (proj2 (proj2 formatSpan_canonical_nesting)) _ _ "Hello" Hnd Hp).
Defined.

(** C4, amended.  With a formatting element, [formatSpan] wraps the text in
    the tags of the flags that are set, where bold and italic are set
    exactly when their attribute parses as a nonzero integer, and underline
    and strikethrough exactly when their attribute is present with a
    non-empty value other than the sentinel ("none", "noStrike"); an absent
    attribute leaves its flag unset, and a run without formatting element
    formats to its text alone. *)
Theorem formatSpan_flag_interpretation :
  (∀ span formatting,
      head (getElementsByTagName "a:rPr" span) = Some formatting →
      formatSpan span
      = nestTags (List.filter (specFlagNonEmpty formatting) canonicalOrder) (spanText span))
  ∧ (∀ formatting f,
       getAttribute (attrOf f) formatting = None → specFlagNonEmpty formatting f = false)
  ∧ (∀ span, head (getElementsByTagName "a:rPr" span) = None →
       formatSpan span = spanText span).
Proof.
  split; [|split].
  - intros span formatting Hf. rewrite formatSpan_closed. unfold activeFlags.
    rewrite Hf. f_equal. apply List.filter_ext, flagSet_spec.
  - intros formatting f Hf.
    destruct f; unfold specFlagNonEmpty, specFlag; cbn [attrOf] in *;
      rewrite Hf; reflexivity.
  - intros span Hf. rewrite formatSpan_closed. unfold activeFlags. by rewrite Hf.
Qed.

Lemma formatSpan_flag_interpretation_witness :
  (head (getElementsByTagName "a:rPr" (mkRun [("u", "none"); ("b", "0"); ("i", "2")] "x"))
   = Some (Element "a:rPr" [("u", "none"); ("b", "0"); ("i", "2")] [])
   ∧ formatSpan (mkRun [("u", "none"); ("b", "0"); ("i", "2")] "x") = "<i>x</i>")
  ∧ (getAttribute (attrOf Underline) (Element "a:rPr" [("b", "1")] []) = None
     ∧ specFlagNonEmpty (Element "a:rPr" [("b", "1")] []) Underline = false)
  ∧ (head (getElementsByTagName "a:rPr" (Element "a:r" [] [Element "a:t" [] [Text "x"]])) = None
     ∧ formatSpan (Element "a:r" [] [Element "a:t" [] [Text "x"]]) = "x").
Proof.
  split; [|split].
  - split; [reflexivity|].
    exact (proj1 formatSpan_flag_interpretation
             (mkRun [("u", "none"); ("b", "0"); ("i", "2")] "x") _ eq_refl).
  - split; [reflexivity|].
    exact (proj1 (proj2 formatSpan_flag_interpretation)
             (Element "a:rPr" [("b", "1")] []) Underline eq_refl).
  - split; [reflexivity|].
    exact (proj2 (proj2 formatSpan_flag_interpretation)
             (Element "a:r" [] [Element "a:t" [] [Text "x"]]) eq_refl).
Defined.

(** C4, as stated, fails: an underline attribute that is present with the
    empty value differs from the sentinel, yet the flag is not set. *)
Lemma formatSpan_empty_underline_unset :
  ¬ (∀ span formatting,
       head (getElementsByTagName "a:rPr" span) = Some formatting →
       formatSpan span
       = nestTags (List.filter (specFlag formatting) canonicalOrder) (spanText span)).
Proof.
  intros H.
  specialize (H (mkRun [("u", EmptyString)] "Hello") _ eq_refl).
  vm_compute in H. discriminate H.
Qed.

(** C9. A run without text element formats to its tags around the literal
    string "undefined", not around the empty string. *)
Theorem formatSpan_absent_text_undefined (span : Node) :
  head (getElementsByTagName "a:t" span) = None →
  formatSpan span = nestTags (activeFlags span) "undefined"
  ∧ formatSpan span ≠ nestTags (activeFlags span) EmptyString.
Proof.
  intros Ht.
  assert (formatSpan span = nestTags (activeFlags span) "undefined") as E.
  { rewrite formatSpan_closed. unfold spanText. by rewrite Ht. }
  split; [exact E|]. rewrite E. intros Heq.
  apply (f_equal String.length) in Heq. rewrite nestTags_length in Heq.
  cbn [String.length] in Heq. lia.
Qed.

Lemma formatSpan_absent_text_undefined_witness :
  head (getElementsByTagName "a:t" (Element "a:r" [] [Element "a:rPr" [("b", "1")] []])) = None
  ∧ formatSpan (Element "a:r" [] [Element "a:rPr" [("b", "1")] []]) = "<b>undefined</b>".
Proof.
  split; [reflexivity|].
  exact (proj1 (formatSpan_absent_text_undefined
                  (Element "a:r" [] [Element "a:rPr" [("b", "1")] []]) eq_refl)).
Defined.

(** ** formatLine *)

Section FormatLine.

Lemma result_bind_Ok {A B} (a : A) (k : A → result B) : (Ok a ≫= k) = k a.
Proof. reflexivity. Qed.

Lemma result_bind_Throw {A B} (e : exn) (k : A → result B) : (Throw e ≫= k) = Throw e.
Proof. reflexivity. Qed.

(** The loop over the runs appends one space and the formatted run per
    iteration. *)
Lemma spans_loop (spans : list Node) (init : string) :
  fold_left (λ str span, str +:+ " " +:+ formatSpan span) spans init
  = init +:+ concatStrings ((λ span, " " +:+ formatSpan span) <$> spans).
Proof.
  revert init. induction spans as [|span spans IH]; intros init.
  - by rewrite string_app_nil_r.
  - cbn [fold_left]. rewrite IH, fmap_cons. cbn [concatStrings].
    by rewrite !string_app_assoc.
Qed.

Lemma formatLine_ok (line : Node) :
  nonNegative (indentLevel line) →
  formatLine line
  = Ok ("<p>" +:+ indentPrefix (indentLevel line) +:+ runsBody line +:+ "</p>").
Proof.
  unfold formatLine, indentLevel, runsBody.
  destruct (head (getElementsByTagName "a:pPr" line)) as [formatting|].
  - destruct (parseInt (toStringNull (getAttribute "lvl" formatting)) None) as [|n].
    + intros _. cbn [truthy]. rewrite result_bind_Ok, spans_loop. reflexivity.
    + cbn [nonNegative truthy indentPrefix repeat]. intros Hn.
      destruct (Z.eqb_spec n 0) as [->|Hne]; cbn [negb].
      * rewrite result_bind_Ok, spans_loop. reflexivity.
      * destruct (Z.ltb_spec n 0) as [?|_]; [lia|].
        destruct (Z.ltb_spec 0 n) as [_|?]; [|lia].
        rewrite !result_bind_Ok, spans_loop.
        unfold tabMarker, bulletMarker, mret, result_ret.
        by rewrite !string_app_assoc.
  - intros _. rewrite result_bind_Ok, spans_loop. reflexivity.
Qed.

(** The one way [formatLine] fails: a negative indent level reaches
    [repeat]. *)
Lemma formatLine_throw (line : Node) (n : Z) :
  indentLevel line = Num n → n < 0 → formatLine line = Throw RangeError.
Proof.
  unfold formatLine, indentLevel.
  destruct (head (getElementsByTagName "a:pPr" line)) as [formatting|]; [|done].
  intros -> Hn. cbn [truthy repeat].
  destruct (Z.eqb_spec n 0) as [->|_]; [lia|]. cbn [negb].
  destruct (Z.ltb_spec n 0) as [_|?]; [|lia]. reflexivity.
Qed.

End FormatLine.

(** C3 fails on the code: the paragraph of Scenario B with the level -2
    in place of 2 gives no paragraph at all, [formatLine] raises a
    [RangeError] where the claim has it return the paragraph tags around
    the runs. *)
Theorem formatLine_negative_level_no_paragraph :
  formatLine (mkLine (Some [("lvl", "-2")]) [mkRun [] "World"]) = Throw RangeError
  ∧ formatLine (mkLine (Some [("lvl", "2")]) [mkRun [] "World"])
    = Ok ("<p>" +:+ tabMarker +:+ tabMarker +:+ bulletMarker +:+ " World" +:+ "</p>")
  ∧ formatLine (mkLine (Some [("lvl", "0")]) [mkRun [] "World"]) = Ok "<p> World</p>"
  ∧ formatLine (mkLine (Some [("lvl", "two")]) [mkRun [] "World"]) = Ok "<p> World</p>"
  ∧ formatLine (mkLine None [mkRun [] "World"]) = Ok "<p> World</p>".
Proof. repeat split; reflexivity. Qed.

(** C8 fails on the code: a negative indent level is truthy, reaches
    [repeat] and raises a [RangeError] instead of giving no prefix. *)
Theorem formatLine_negative_indent_throws :
  formatLine (mkLine (Some [("lvl", "-1")]) [mkRun [] "World"]) = Throw RangeError.
Proof. reflexivity. Qed.

(** ** The sort *)

Section Sort.

Lemma insert_perm {A} (cmp : A → A → number) (x : A) (l : list A) :
  Array.insert cmp x l ≡ₚ x :: l.
Proof.
  induction l as [|y l IH]; cbn [Array.insert]; [done|].
  destruct (_ <=? _); [done|]. rewrite IH. apply perm_swap.
Qed.

Lemma sort_perm {A} (cmp : A → A → number) (l : list A) : Array.sort cmp l ≡ₚ l.
Proof.
  induction l as [|x l IH]; [done|].
  unfold Array.sort. cbn [fold_right]. fold (Array.sort cmp l).
  by rewrite insert_perm, IH.
Qed.

Lemma sortCompare_slides (a b : SlideNotes) (x y : Z) :
  slide a = Num x → slide b = Num y → Array.sortCompare compareSlides a b = x - y.
Proof. unfold Array.sortCompare, compareSlides, sub. by intros -> ->. Qed.

Lemma slideLe_trans (a b c : SlideNotes) : slideLe a b → slideLe b c → slideLe a c.
Proof.
  unfold slideLe. destruct (slide a), (slide b), (slide c); try done. lia.
Qed.

Lemma insert_sorted (x : SlideNotes) (l : list SlideNotes) :
  isInt x → Forall isInt l → StronglySorted slideLe l →
  StronglySorted slideLe (Array.insert compareSlides x l).
Proof.
  intros [zx Hx] Hint Hs. induction Hs as [|y l Hs IH Hy]; cbn [Array.insert].
  - repeat constructor.
  - apply Forall_cons in Hint as [[zy Hzy] Hint].
    rewrite (sortCompare_slides x y zx zy Hx Hzy).
    destruct (Z.leb_spec (zx - zy) 0) as [Hle|Hgt].
    + assert (slideLe x y) as Hxy by (unfold slideLe; rewrite Hx, Hzy; lia).
      constructor; [by constructor|].
      constructor; [done|].
      eapply Forall_impl; [exact Hy|]. intros z Hz. by eapply slideLe_trans.
    + constructor; [by apply IH|].
      rewrite insert_perm. constructor; [|done].
      unfold slideLe. rewrite Hx, Hzy. lia.
Qed.

Lemma sort_sorted (l : list SlideNotes) :
  Forall isInt l → StronglySorted slideLe (Array.sort compareSlides l).
Proof.
  induction l as [|x l IH]; intros Hint; [constructor|].
  apply Forall_cons in Hint as [Hx Hint].
  unfold Array.sort. cbn [fold_right]. fold (Array.sort compareSlides l).
  apply insert_sorted; [done| |by apply IH].
  by rewrite sort_perm.
Qed.



(** In a sorted list an earlier element is below every later one. *)
Lemma sorted_lookup {A} (R : relation A) (l : list A) (i j : nat) (a b : A) :
  StronglySorted R l → (i < j)%nat → l !! i = Some a → l !! j = Some b → R a b.
Proof.
  intros Hs. revert i j. induction Hs as [|x l Hs IH Hx]; intros i j Hij Hi Hj; [done|].
  destruct j as [|j]; [lia|]. cbn in Hj.
  destruct i as [|i]; cbn in Hi.
  - injection Hi as ->. rewrite Forall_forall in Hx. apply Hx.
    by eapply list_elem_of_lookup_2.
  - apply (IH i j); [lia|done..].
Qed.

(** Records without number come before a numbered one. *)
Lemma sorted_unnumbered_first (l : list SlideNotes) (i j : nat) (a b : SlideNotes) (n : Z) :
  StronglySorted slideLe l → l !! i = Some a → l !! j = Some b →
  slide a = Num (-1) → slide b = Num n → 0 ≤ n → (i < j)%nat.
Proof.
  intros Hs Hi Hj Ha Hb Hn.
  destruct (decide (i < j)%nat) as [|Hge]; [done|]. exfalso.
  destruct (decide (i = j)) as [->|Hne].
  - rewrite Hi in Hj. injection Hj as ->. rewrite Ha in Hb. injection Hb as <-. lia.
  - assert (slideLe b a) as Hba by (apply (sorted_lookup _ l j i); [done|lia|done..]).
    unfold slideLe in Hba. rewrite Ha, Hb in Hba. lia.
Qed.

End Sort.

(** ** The patterns and the slide number *)

Import RegExp.

Section Patterns.

Lemma isDigit_code (c : ascii) : isDigit c = true ↔ 48 ≤ code c ≤ 57.
Proof. unfold isDigit. rewrite andb_true_iff, !Z.leb_le. done. Qed.

Lemma isDigit_value (c : ascii) :
  isDigit c = true → digitValue c = Some (code c - 48).
Proof. unfold isDigit, digitValue. by intros ->. Qed.

Lemma isDigit_not_space (c : ascii) : isDigit c = true → isWhiteSpace c = false.
Proof.
  rewrite isDigit_code. unfold isWhiteSpace. intros H.
  destruct (Z.leb_spec 9 (code c)), (Z.leb_spec (code c) 13),
    (Z.eqb_spec (code c) 32), (Z.eqb_spec (code c) 160); try done; lia.
Qed.

Lemma isDigit_not_char (c d : ascii) :
  isDigit c = true → isDigit d = false → Ascii.eqb c d = false.
Proof.
  intros Hc Hd. destruct (Ascii.eqb_spec c d) as [->|]; [|done]. congruence.
Qed.

Lemma spanDigits_spec (s : string) :
  allDigits (spanDigits s).1 = true
  ∧ s = (spanDigits s).1 +:+ (spanDigits s).2
  ∧ match (spanDigits s).2 with
    | String c _ => isDigit c = false
    | EmptyString => True
    end.
Proof.
  induction s as [|c s (IH1 & IH2 & IH3)]; [done|]. cbn [RegExp.spanDigits].
  destruct (isDigit c) eqn:Hc.
  - destruct (spanDigits s) as [ds rest]. cbn [fst snd allDigits] in *.
    rewrite Hc, IH1. repeat split; [|done].
    change (String c s = String c (ds +:+ rest)). by rewrite IH2.
  - cbn [fst snd allDigits]. by repeat split.
Qed.

(** The digits of a string are the greedy match when a non-digit
    follows. *)
Lemma spanDigits_app (ds rest : string) :
  allDigits ds = true →
  match rest with String c _ => isDigit c = false | EmptyString => True end →
  spanDigits (ds +:+ rest) = (ds, rest).
Proof.
  intros Hds Hrest. induction ds as [|c ds IH].
  - change (spanDigits rest = (EmptyString, rest)).
    destruct rest as [|c rest]; [done|]. cbn [RegExp.spanDigits]. by rewrite Hrest.
  - cbn [allDigits] in Hds. apply andb_true_iff in Hds as [Hc Hds].
    change (spanDigits (String c (ds +:+ rest)) = (String c ds, rest)).
    cbn [RegExp.spanDigits]. by rewrite Hc, (IH Hds).
Qed.

Lemma radixDigits_decimal (ds : string) (a : Z) :
  allDigits ds = true → 0 ≤ a →
  ∃ n, radixDigits 10 ds (Some a) = Some n ∧ 0 ≤ n.
Proof.
  revert a. induction ds as [|c ds IH]; intros a Hds Ha; [by exists a|].
  cbn [allDigits] in Hds. apply andb_true_iff in Hds as [Hc Hds].
  cbn [radixDigits]. rewrite (isDigit_value c Hc).
  apply isDigit_code in Hc.
  destruct (Z.ltb_spec (code c - 48) 10) as [_|?]; [|lia].
  apply IH; [done|]. unfold default. cbn [from_option id]. lia.
Qed.

Lemma parseInt_digits (ds : string) :
  digits ds → ∃ n, parseInt ds (Some 10) = Num n ∧ 0 ≤ n.
Proof.
  intros [Hds Hne]. destruct ds as [|c ds]; [done|]. clear Hne.
  pose proof Hds as Hall.
  cbn [allDigits] in Hds. apply andb_true_iff in Hds as [Hc Hds].
  unfold parseInt. cbn [trimStart]. rewrite (isDigit_not_space c Hc).
  rewrite !(isDigit_not_char c) by done. unfold default. cbn [from_option id].
  change (negb (10 =? 0) && ((10 <? 2) || (36 <? 10))) with false.
  change ((10 =? 0) || (10 =? 16)) with false. cbn iota.
  change (if 10 =? 0 then 10 else 10) with 10.
  cbn [radixDigits]. rewrite (isDigit_value c Hc).
  pose proof (proj1 (isDigit_code c) Hc) as Hcode.
  destruct (Z.ltb_spec (code c - 48) 10) as [_|?]; [|lia].
  destruct (radixDigits_decimal ds (default 0 None * 10 + (code c - 48)) Hds)
    as (n & -> & Hn); [unfold default; cbn [from_option id]; lia|].
  exists n. split; [f_equal; lia|done].
Qed.

Lemma matchLiteral_exact (lit s rest : string) :
  matchLiteral false lit s = Some rest ↔ s = lit +:+ rest.
Proof.
  revert s. induction lit as [|p lit IH]; intros s; cbn [RegExp.matchLiteral].
  - split; [by intros [= ->]|by intros ->].
  - destruct s as [|c s].
    + split; [done|]. intros H. discriminate H.
    + change (String p lit +:+ rest) with (String p (lit +:+ rest)).
      destruct (Ascii.eqb_spec c p) as [->|Hne].
      * rewrite IH. split; [by intros ->|by intros [= ->]].
      * split; [done|]. intros [= ? _]. done.
Qed.

Lemma matchLiteral_ignoreCase (lit s rest : string) :
  matchLiteral true lit s = Some rest
  ↔ ∃ tok, s = tok +:+ rest ∧ equalIgnoringCase tok lit = true.
Proof.
  revert s. induction lit as [|p lit IH]; intros s; cbn [RegExp.matchLiteral].
  - split.
    + intros [= ->]. by exists EmptyString.
    + intros (tok & -> & Htok). by destruct tok.
  - destruct s as [|c s].
    + split; [done|]. intros ([|x tok] & Hs & Htok); [done|discriminate Hs].
    + destruct (Ascii.eqb (canonicalize c) (canonicalize p)) eqn:Hc.
      * rewrite IH. split.
        -- intros (tok & -> & Htok). exists (String c tok). split; [done|].
           cbn [equalIgnoringCase]. by rewrite Hc, Htok.
        -- intros ([|x tok] & Hs & Htok); [done|].
           cbn [equalIgnoringCase] in Htok. apply andb_true_iff in Htok as [_ Htok].
           injection Hs as -> ->. by exists tok.
      * split; [done|]. intros ([|x tok] & Hs & Htok); [done|].
        cbn [equalIgnoringCase] in Htok. apply andb_true_iff in Htok as [Hx _].
        injection Hs as -> ->. congruence.
Qed.

Lemma test_spec (f : string → bool) (s : string) :
  RegExp.test f s = true ↔ ∃ pre suf, s = pre +:+ suf ∧ f suf = true.
Proof.
  induction s as [|c s IH]; cbn [RegExp.test]; rewrite orb_true_iff.
  - split.
    + intros [H|H]; [|done]. by exists EmptyString, EmptyString.
    + intros ([|x pre] & suf & Hs & Hf); [|discriminate Hs].
      left. change (EmptyString = suf) in Hs. by subst.
  - rewrite IH. split.
    + intros [H|(pre & suf & -> & Hf)].
      * by exists EmptyString, (String c s).
      * by exists (String c pre), suf.
    + intros ([|x pre] & suf & Hs & Hf).
      * left. change (String c s = suf) in Hs. by subst.
      * right. injection Hs as -> ->. by exists pre, suf.
Qed.

Lemma exec_Some {A} (f : string → option A) (s : string) (m : A) :
  RegExp.exec f s = Some m → ∃ pre suf, s = pre +:+ suf ∧ f suf = Some m.
Proof.
  induction s as [|c s IH]; cbn [RegExp.exec].
  - destruct (f EmptyString) eqn:E; [|done]. intros [= ->].
    by exists EmptyString, EmptyString.
  - destruct (f (String c s)) eqn:E.
    + intros [= ->]. by exists EmptyString, (String c s).
    + intros (pre & suf & -> & Hf)%IH. by exists (String c pre), suf.
Qed.

Lemma exec_None {A} (f : string → option A) (s : string) :
  RegExp.exec f s = None ↔ ∀ pre suf, s = pre +:+ suf → f suf = None.
Proof.
  induction s as [|c s IH]; cbn [RegExp.exec].
  - destruct (f EmptyString) eqn:E.
    + split; [done|]. intros H. by rewrite (H EmptyString EmptyString eq_refl) in E.
    + split; [|done]. intros _ [|x pre] suf Hs; [|discriminate Hs].
      change (EmptyString = suf) in Hs. by subst.
  - destruct (f (String c s)) eqn:E.
    + split; [done|]. intros H. by rewrite (H EmptyString (String c s) eq_refl) in E.
    + rewrite IH. split.
      * intros H [|x pre] suf Hs.
        -- change (String c s = suf) in Hs. by subst.
        -- injection Hs as -> ->. by apply (H pre).
      * intros H pre suf ->. by apply (H (String c pre)).
Qed.

Lemma slideMatchAt_spec (s ds : string) :
  slideMatchAt s = Some ds ↔ s = "notesSlide" +:+ ds +:+ ".xml" ∧ digits ds.
Proof.
  unfold slideMatchAt, digits. split.
  - destruct (matchLiteral false "notesSlide" s) as [rest|] eqn:Hlit; [|done].
    apply matchLiteral_exact in Hlit as ->. cbn [mbind option_bind].
    destruct (spanDigits_spec rest) as (Hall & Hrest & _).
    destruct (spanDigits rest) as [ds' rest']. cbn [fst snd] in *.
    destruct (String.eqb_spec ds' EmptyString) as [|Hne]; [done|].
    destruct (String.eqb_spec rest' ".xml") as [->|]; [|done].
    intros [= <-]. by rewrite Hrest.
  - intros (-> & Hall & Hne).
    rewrite (proj2 (matchLiteral_exact "notesSlide" _ (ds +:+ ".xml")) eq_refl).
    cbn [mbind option_bind]. rewrite (spanDigits_app ds ".xml" Hall) by done.
    by destruct (String.eqb_spec ds EmptyString).
Qed.

(** The slide number is an integer, [-1] or the value of a digit string. *)
Lemma slideNumberOf_int (filename : string) :
  ∃ n, slideNumberOf filename = Num n ∧ -1 ≤ n.
Proof.
  unfold slideNumberOf.
  destruct (RegExp.exec slideMatchAt filename) as [ds|] eqn:E.
  - apply exec_Some in E as (pre & suf & _ & (_ & Hds)%slideMatchAt_spec).
    destruct (parseInt_digits ds Hds) as (n & -> & Hn). exists n. split; [done|lia].
  - by exists (-1).
Qed.

Lemma spanDigits_nonempty (r : string) :
  negb (String.eqb (spanDigits r).1 EmptyString) = true
  ↔ ∃ d r', r = String d r' ∧ isDigit d = true.
Proof.
  destruct r as [|d r]; cbn [RegExp.spanDigits].
  - split; [done|]. by intros (? & ? & ? & _).
  - destruct (isDigit d) eqn:Hd.
    + destruct (spanDigits r) as [ds rest]. split; [|done]. intros _. by exists d, r.
    + split; [done|]. intros (d' & r' & [= <- <-] & Hd'). congruence.
Qed.

Lemma qualifiesAt_spec (s : string) :
  qualifiesAt s = true
  ↔ ∃ tok d rest, s = tok +:+ String d rest
                  ∧ equalIgnoringCase tok "notesSlide" = true ∧ isDigit d = true.
Proof.
  unfold qualifiesAt. split.
  - destruct (matchLiteral true "notesSlide" s) as [r|] eqn:Hlit; [|done].
    apply matchLiteral_ignoreCase in Hlit as (tok & -> & Htok).
    intros (d & r' & -> & Hd)%spanDigits_nonempty. by exists tok, d, r'.
  - intros (tok & d & rest & -> & Htok & Hd).
    assert (matchLiteral true "notesSlide" (tok +:+ String d rest) = Some (String d rest))
      as -> by (apply matchLiteral_ignoreCase; by exists tok).
    apply spanDigits_nonempty. by exists d, rest.
Qed.

(** What [/notesSlide[0-9]+/i.test] accepts: the token in any case
    followed by a digit, anywhere in the name. *)
Lemma qualifies_spec (s : string) :
  qualifies s = true
  ↔ ∃ pre tok d rest, s = pre +:+ tok +:+ String d rest
                      ∧ equalIgnoringCase tok "notesSlide" = true ∧ isDigit d = true.
Proof.
  unfold qualifies. rewrite test_spec. split.
  - intros (pre & suf & -> & (tok & d & rest & -> & H)%qualifiesAt_spec).
    by exists pre, tok, d, rest.
  - intros (pre & tok & d & rest & -> & H). exists pre, (tok +:+ String d rest).
    split; [done|]. apply qualifiesAt_spec. by exists tok, d, rest.
Qed.

(** What [/notesSlide(\d+)\.xml$/] captures: the digits between the
    token and the extension at the end of the name. *)
Lemma slideMatch_Some (s ds : string) :
  RegExp.exec slideMatchAt s = Some ds →
  ∃ pre, s = pre +:+ "notesSlide" +:+ ds +:+ ".xml" ∧ digits ds.
Proof.
  intros (pre & suf & -> & (-> & Hds)%slideMatchAt_spec)%exec_Some. by exists pre.
Qed.

Lemma slideMatch_None (s : string) :
  RegExp.exec slideMatchAt s = None
  ↔ ¬ ∃ pre ds, s = pre +:+ "notesSlide" +:+ ds +:+ ".xml" ∧ digits ds.
Proof.
  rewrite exec_None. split.
  - intros H (pre & ds & Hs & Hds).
    specialize (H pre _ Hs).
    by rewrite (proj2 (slideMatchAt_spec _ ds) (conj eq_refl Hds)) in H.
  - intros H pre suf ->. destruct (slideMatchAt suf) as [ds|] eqn:E; [|done].
    apply slideMatchAt_spec in E as (-> & Hds). destruct H. by exists pre, ds.
Qed.

End Patterns.

(** ** The loop over the entries *)

Section Collect.

Lemma collectNotes_entries (files : Package) (acc : list SlideNotes) :
  collectNotes files acc = (rest ← entriesNotes files; mret (acc ++ rest)).
Proof.
  revert acc. induction files as [|[filename dom] files IH]; intros acc.
  - cbn. by rewrite app_nil_r.
  - cbn [collectNotes entriesNotes entryNotes].
    destruct (RegExp.test qualifiesAt filename);
      [destruct (head (docGetElementsByTagName "p:txBody" dom)) as [body|];
       [destruct (formatLines (getElementsByTagName "a:p" body) EmptyString) as [text|e]|]|];
      rewrite ?result_bind_Ok, ?result_bind_Throw, ?IH; try done;
      destruct (entriesNotes files); try done.
    cbn. by rewrite <- app_assoc.
Qed.

Lemma extractNotes_entries (zip : Package) :
  extractNotes zip = (ns ← entriesNotes zip; mret (Array.sort compareSlides ns)).
Proof.
  unfold extractNotes. rewrite collectNotes_entries.
  by destruct (entriesNotes zip).
Qed.

Lemma entriesNotes_app (a b : Package) :
  entriesNotes (a ++ b)
  = (ra ← entriesNotes a; rb ← entriesNotes b; mret (ra ++ rb)).
Proof.
  induction a as [|entry a IH].
  - cbn. by destruct (entriesNotes b).
  - cbn [app entriesNotes]. rewrite IH.
    destruct (entryNotes entry) as [o|]; [|done]. rewrite !result_bind_Ok.
    destruct (entriesNotes a) as [ra|]; [|done]. rewrite !result_bind_Ok.
    destruct (entriesNotes b) as [rb|]; [|done]. cbn. by rewrite app_assoc.
Qed.

Lemma entriesNotes_cons_Ok entry files ns :
  entriesNotes (entry :: files) = Ok ns
  ↔ ∃ o rest, entryNotes entry = Ok o ∧ entriesNotes files = Ok rest
              ∧ ns = option_list o ++ rest.
Proof.
  cbn [entriesNotes].
  destruct (entryNotes entry) as [o|]; [|split; [done|by intros (? & ? & ? & _)]].
  destruct (entriesNotes files) as [rest|];
    [|split; [done|by intros (? & ? & _ & ? & _)]].
  split.
  - intros [= <-]. by exists o, rest.
  - by intros (? & ? & [= <-] & [= <-] & ->).
Qed.



Lemma entryNotes_isInt entry r : entryNotes entry = Ok (Some r) → isInt r ∧ ∃ n, slide r = Num n ∧ -1 ≤ n.
Proof.
  destruct entry as [filename dom]. unfold entryNotes.
  destruct (RegExp.test qualifiesAt filename); [|done].
  destruct (head (docGetElementsByTagName "p:txBody" dom)) as [body|]; [|done].
  destruct (formatLines (getElementsByTagName "a:p" body) EmptyString) as [text|e]; [|done].
  intros [= <-]. cbn [slide]. unfold isInt. cbn [slide].
  destruct (slideNumberOf_int filename) as (n & Hn & Hle). eauto.
Qed.

Lemma entriesNotes_isInt (files : Package) (ns : list SlideNotes) :
  entriesNotes files = Ok ns → Forall isInt ns.
Proof.
  revert ns. induction files as [|entry files IH]; intros ns.
  - intros [= <-]. constructor.
  - intros (o & rest & Ho & Hrest & ->)%entriesNotes_cons_Ok.
    apply Forall_app. split; [|by apply IH].
    destruct o as [r|]; [|constructor].
    constructor; [|constructor]. by apply (entryNotes_isInt entry).
Qed.

Lemma collectNotes_nil (files : Package) : collectNotes files [] = entriesNotes files.
Proof. rewrite collectNotes_entries. by destruct (entriesNotes files). Qed.


Lemma entryNotes_no_body filename dom :
  hasNotesBody dom = None → entryNotes (filename, dom) = Ok None.
Proof.
  unfold hasNotesBody, entryNotes. intros ->. by destruct (RegExp.test _ _).
Qed.

Lemma entryNotes_body filename dom body :
  qualifies filename = true → hasNotesBody dom = Some body →
  entryNotes (filename, dom)
  = (slideText ← formatLines (getElementsByTagName "a:p" body) EmptyString;
     mret (Some {| slide := slideNumberOf filename; notes := trim slideText |})).
Proof. unfold qualifies, hasNotesBody, entryNotes. by intros -> ->. Qed.

Lemma entriesNotes_insert (pre post : Package) entry :
  entriesNotes (pre ++ entry :: post)
  = (ra ← entriesNotes pre; o ← entryNotes entry; rb ← entriesNotes post;
     mret (ra ++ option_list o ++ rb)).
Proof.
  rewrite entriesNotes_app. cbn [entriesNotes].
  destruct (entriesNotes pre) as [ra|]; [|done]. rewrite !result_bind_Ok.
  destruct (entryNotes entry) as [o|]; [|done]. rewrite !result_bind_Ok.
  by destruct (entriesNotes post) as [rb|].
Qed.

Lemma entriesNotes_skip (pre post : Package) entry :
  entryNotes entry = Ok None →
  entriesNotes (pre ++ entry :: post) = entriesNotes (pre ++ post).
Proof.
  intros H. rewrite entriesNotes_insert, entriesNotes_app, H.
  destruct (entriesNotes pre); [|done]. by rewrite !result_bind_Ok.
Qed.


Lemma extractNotes_Ok (zip : Package) (out : list SlideNotes) :
  extractNotes zip = Ok out
  ↔ ∃ ns, entriesNotes zip = Ok ns ∧ out = Array.sort compareSlides ns.
Proof.
  rewrite extractNotes_entries. destruct (entriesNotes zip) as [ns|e].
  - split; [intros [= <-]; by exists ns|by intros (? & [= <-] & ->)].
  - split; [done|by intros (? & ? & _)].
Qed.

Lemma extractNotes_sorted (zip : Package) (out : list SlideNotes) :
  extractNotes zip = Ok out → StronglySorted slideLe out.
Proof.
  intros (ns & Hns & ->)%extractNotes_Ok.
  by apply sort_sorted, (entriesNotes_isInt zip).
Qed.

End Collect.

(** C2. Whatever records were collected, with arbitrary integer slide
    numbers, duplicates and -1 included, the sort returns the same records
    in non-decreasing numeric order of [slide]; so does [extractNotes], and
    a record with slide -1 comes before every numbered one.  Entries
    notesSlide10.xml and notesSlide2.xml come out as slide 2, then 10. *)
Theorem extractNotes_sorted_by_slide :
  (∀ records, Forall isInt records →
     Array.sort compareSlides records ≡ₚ records
     ∧ StronglySorted slideLe (Array.sort compareSlides records))
  ∧ (∀ zip out, extractNotes zip = Ok out →
       (∀ i j a b, (i < j)%nat → out !! i = Some a → out !! j = Some b → slideLe a b)
       ∧ (∀ i j a b n, out !! i = Some a → out !! j = Some b →
            slide a = Num (-1) → slide b = Num n → 0 ≤ n → (i < j)%nat))
  ∧ extractNotes packageTwoTen
    = Ok [{| slide := Num 2; notes := "<p> two</p>" |};
          {| slide := Num 10; notes := "<p> ten</p>" |}].
Proof.
  split; [|split; [|reflexivity]].
  - intros records Hint. split; [apply sort_perm|by apply sort_sorted].
  - intros zip out Hs%extractNotes_sorted. split.
    + intros i j a b. by apply sorted_lookup.
    + intros i j a b n. by apply sorted_unnumbered_first.
Qed.

Lemma extractNotes_sorted_by_slide_witness :
  (Forall isInt sampleRecords
   ∧ Array.sort compareSlides sampleRecords ≡ₚ sampleRecords
   ∧ StronglySorted slideLe (Array.sort compareSlides sampleRecords))
  ∧ (extractNotes packageMixed
     = Ok [{| slide := Num (-1); notes := "<p> seven</p>" |};
           {| slide := Num 2; notes := "<p> two</p>" |};
           {| slide := Num 10; notes := "<p> ten</p>" |}]
     ∧ slideLe {| slide := Num (-1); notes := "<p> seven</p>" |}
               {| slide := Num 10; notes := "<p> ten</p>" |}).
Proof.
  assert (Forall isInt sampleRecords) as Hint
    by (repeat constructor; eexists; reflexivity).
  split.
  - split; [exact Hint|].
    exact (proj1 extractNotes_sorted_by_slide sampleRecords Hint).
  - split; [reflexivity|].
    apply (proj1 (proj1 (proj2 extractNotes_sorted_by_slide) packageMixed _ eq_refl) 0%nat 2%nat);
      [lia|reflexivity|reflexivity].
Defined.

(** C5. A qualifying entry without notes-body element contributes no
    record and raises nothing: the result is that of the package without
    the entry, one record fewer than with a variant that has the element.
    A qualifying entry whose notes body holds no paragraph contributes a
    record with the empty string. *)
Theorem extractNotes_missing_and_empty_body (pre post : Package) (filename : string) (dom : Document) :
  qualifies filename = true →
  (hasNotesBody dom = None →
     extractNotes (pre ++ (filename, dom) :: post) = extractNotes (pre ++ post))
  ∧ (∀ body rs1 rs2,
       hasNotesBody dom = Some body → getElementsByTagName "a:p" body = [] →
       collectNotes pre [] = Ok rs1 → collectNotes post [] = Ok rs2 →
       collectNotes (pre ++ (filename, dom) :: post) []
       = Ok (rs1 ++ {| slide := slideNumberOf filename; notes := EmptyString |} :: rs2)
       ∧ ∃ out, extractNotes (pre ++ (filename, dom) :: post) = Ok out
                ∧ {| slide := slideNumberOf filename; notes := EmptyString |} ∈ out)
  ∧ (∀ body dom0 out,
       hasNotesBody dom = Some body → hasNotesBody dom0 = None →
       extractNotes (pre ++ (filename, dom) :: post) = Ok out →
       ∃ out0, extractNotes (pre ++ (filename, dom0) :: post) = Ok out0
               ∧ length out = S (length out0)).
Proof.
  intros Hq. split; [|split].
  - intros Hb. rewrite !extractNotes_entries.
    by rewrite (entriesNotes_skip pre post _ (entryNotes_no_body filename dom Hb)).
  - intros body rs1 rs2 Hb Hlines H1 H2. rewrite collectNotes_nil in H1, H2.
    assert (entriesNotes (pre ++ (filename, dom) :: post)
            = Ok (rs1 ++ {| slide := slideNumberOf filename; notes := EmptyString |} :: rs2))
      as E.
    { rewrite entriesNotes_insert, H1, H2, (entryNotes_body filename dom body Hq Hb), Hlines.
      reflexivity. }
    split; [by rewrite collectNotes_nil|].
    eexists. split; [apply extractNotes_Ok; eexists; split; [exact E|reflexivity]|].
    rewrite sort_perm. apply elem_of_app. right. left.
  - intros body dom0 out Hb Hb0 (ns & Hns & ->)%extractNotes_Ok.
    rewrite entriesNotes_insert in Hns.
    destruct (entriesNotes pre) as [rs1|] eqn:H1; [|done]. rewrite result_bind_Ok in Hns.
    destruct (entryNotes (filename, dom)) as [o|] eqn:Ho; [|done].
    rewrite result_bind_Ok in Hns.
    destruct (entriesNotes post) as [rs2|] eqn:H2; [|done]. injection Hns as <-.
    rewrite (entryNotes_body filename dom body Hq Hb) in Ho.
    destruct (formatLines _ _) as [text|]; [|done]. injection Ho as <-.
    exists (Array.sort compareSlides (rs1 ++ rs2)). split.
    + apply extractNotes_Ok. exists (rs1 ++ rs2). split; [|done].
      rewrite (entriesNotes_skip pre post _ (entryNotes_no_body filename dom0 Hb0)).
      by rewrite entriesNotes_app, H1, H2.
    + rewrite !sort_perm, !length_app. cbn. lia.
Qed.

Lemma extractNotes_missing_and_empty_body_witness :
  qualifies "ppt/notesSlides/notesSlide4.xml" = true
  ∧ (hasNotesBody (mkDocument [Element "p:notes" [] []]) = None
     ∧ extractNotes (packageTwoTen
                       ++ ("ppt/notesSlides/notesSlide4.xml", mkDocument [Element "p:notes" [] []])
                       :: packageTies)
       = extractNotes (packageTwoTen ++ packageTies))
  ∧ (hasNotesBody (mkNotesDoc []) = Some (Element "p:txBody" [] [])
     ∧ getElementsByTagName "a:p" (Element "p:txBody" [] []) = []
     ∧ collectNotes packageTwoTen []
       = Ok [{| slide := Num 10; notes := "<p> ten</p>" |};
             {| slide := Num 2; notes := "<p> two</p>" |}]
     ∧ collectNotes [] [] = Ok []
     ∧ collectNotes (packageTwoTen ++ [("ppt/notesSlides/notesSlide4.xml", mkNotesDoc [])]) []
       = Ok [{| slide := Num 10; notes := "<p> ten</p>" |};
             {| slide := Num 2; notes := "<p> two</p>" |};
             {| slide := Num 4; notes := EmptyString |}])
  ∧ (extractNotes (packageTwoTen ++ [("ppt/notesSlides/notesSlide4.xml", mkNotesDoc [])])
     = Ok [{| slide := Num 2; notes := "<p> two</p>" |};
           {| slide := Num 4; notes := EmptyString |};
           {| slide := Num 10; notes := "<p> ten</p>" |}]
     ∧ ∃ out0,
         extractNotes (packageTwoTen
                         ++ [("ppt/notesSlides/notesSlide4.xml",
                              mkDocument [Element "p:notes" [] []])])
         = Ok out0
         ∧ 3%nat = S (length out0)).
Proof.
  split; [reflexivity|]. split; [|split].
  - split; [reflexivity|].
    apply (proj1 (extractNotes_missing_and_empty_body packageTwoTen packageTies
                    "ppt/notesSlides/notesSlide4.xml"
                    (mkDocument [Element "p:notes" [] []]) eq_refl)).
    reflexivity.
  - repeat (split; [reflexivity|]).
    exact (proj1 (proj1 (proj2 (extractNotes_missing_and_empty_body packageTwoTen []
                                  "ppt/notesSlides/notesSlide4.xml" (mkNotesDoc []) eq_refl))
                    (Element "p:txBody" [] []) _ _ eq_refl eq_refl eq_refl eq_refl)).
  - split; [reflexivity|].
    exact (proj2 (proj2 (extractNotes_missing_and_empty_body packageTwoTen []
                           "ppt/notesSlides/notesSlide4.xml" (mkNotesDoc []) eq_refl))
             (Element "p:txBody" [] []) (mkDocument [Element "p:notes" [] []]) _
             eq_refl eq_refl eq_refl).
Defined.







(** C10. The entry qualifies by the token in any letter case followed by a
    digit anywhere in its name, while a slide number is captured only from
    a name that ends in the token as written, digits and the extension
    .xml.  A qualifying entry with a notes body whose name fails the second
    pattern, such as NotesSlide7.xml or notesSlide1.xml.rels, gives a
    record with slide -1 in place of the number in its name. *)
Theorem qualifying_unmatched_entry_unnumbered :
  (∀ s, qualifies s = true
        ↔ ∃ pre tok d rest, s = pre +:+ tok +:+ String d rest
                            ∧ equalIgnoringCase tok "notesSlide" = true
                            ∧ isDigit d = true)
  ∧ (∀ s ds, RegExp.exec slideMatchAt s = Some ds →
             ∃ pre, s = pre +:+ "notesSlide" +:+ ds +:+ ".xml" ∧ digits ds)
  ∧ (∀ s, RegExp.exec slideMatchAt s = None
          ↔ ¬ ∃ pre ds, s = pre +:+ "notesSlide" +:+ ds +:+ ".xml" ∧ digits ds)
  ∧ (∀ (pre post : Package) filename dom body text rs1 rs2,
       qualifies filename = true → RegExp.exec slideMatchAt filename = None →
       hasNotesBody dom = Some body →
       formatLines (getElementsByTagName "a:p" body) EmptyString = Ok text →
       collectNotes pre [] = Ok rs1 → collectNotes post [] = Ok rs2 →
       collectNotes (pre ++ (filename, dom) :: post) []
       = Ok (rs1 ++ {| slide := Num (-1); notes := trim text |} :: rs2))
  ∧ (qualifies "NotesSlide7.xml" = true
     ∧ RegExp.exec slideMatchAt "NotesSlide7.xml" = None)
  ∧ (qualifies "notesSlide1.xml.rels" = true
     ∧ RegExp.exec slideMatchAt "notesSlide1.xml.rels" = None)
  ∧ extractNotes [("ppt/notesSlides/NotesSlide7.xml", plainNotes "seven")]
    = Ok [{| slide := Num (-1); notes := "<p> seven</p>" |}]
  ∧ extractNotes [("ppt/notesSlides/notesSlide7.xml", plainNotes "seven")]
    = Ok [{| slide := Num 7; notes := "<p> seven</p>" |}].
Proof.
  split; [exact qualifies_spec|]. split; [exact slideMatch_Some|].
  split; [exact slideMatch_None|]. split; [|by repeat split].
  intros pre post filename dom body text rs1 rs2 Hq Hm Hb Htext H1 H2.
  rewrite collectNotes_nil in *.
  rewrite entriesNotes_insert, H1, H2, (entryNotes_body filename dom body Hq Hb), Htext.
  unfold slideNumberOf. rewrite Hm. reflexivity.
Qed.

Lemma qualifying_unmatched_entry_unnumbered_witness :
  (RegExp.exec slideMatchAt "ppt/notesSlides/notesSlide12.xml" = Some "12"
   ∧ ∃ pre, "ppt/notesSlides/notesSlide12.xml" = pre +:+ "notesSlide" +:+ "12" +:+ ".xml"
            ∧ digits "12")
  ∧ (qualifies "ppt/notesSlides/_rels/notesSlide1.xml.rels" = true
     ∧ RegExp.exec slideMatchAt "ppt/notesSlides/_rels/notesSlide1.xml.rels" = None
     ∧ hasNotesBody (plainNotes "rels")
       = Some (Element "p:txBody" [] [mkLine None [mkRun [] "rels"]])
     ∧ formatLines (getElementsByTagName "a:p"
                      (Element "p:txBody" [] [mkLine None [mkRun [] "rels"]])) EmptyString
       = Ok "<p> rels</p>"
     ∧ collectNotes packageTwoTen []
       = Ok [{| slide := Num 10; notes := "<p> ten</p>" |};
             {| slide := Num 2; notes := "<p> two</p>" |}]
     ∧ collectNotes [] [] = Ok []
     ∧ collectNotes (packageTwoTen
                       ++ [("ppt/notesSlides/_rels/notesSlide1.xml.rels", plainNotes "rels")]) []
       = Ok [{| slide := Num 10; notes := "<p> ten</p>" |};
             {| slide := Num 2; notes := "<p> two</p>" |};
             {| slide := Num (-1); notes := "<p> rels</p>" |}]).
Proof.
  split.
  - split; [reflexivity|].
    exact (proj1 (proj2 qualifying_unmatched_entry_unnumbered)
             "ppt/notesSlides/notesSlide12.xml" "12" eq_refl).
  - repeat (split; [reflexivity|]).
    exact (proj1 (proj2 (proj2 (proj2 qualifying_unmatched_entry_unnumbered)))
             packageTwoTen [] "ppt/notesSlides/_rels/notesSlide1.xml.rels" (plainNotes "rels")
             (Element "p:txBody" [] [mkLine None [mkRun [] "rels"]]) "<p> rels</p>"
             _ _ eq_refl eq_refl eq_refl eq_refl eq_refl eq_refl).
Defined.

(** ** trim *)

Section Trim.

Lemma trimStart_head (c : ascii) (s : string) :
  isWhiteSpace c = false → trimStart (String c s) = String c s.
Proof. intros H. cbn [trimStart]. by rewrite H. Qed.

Lemma trimStart_post (s : string) :
  match trimStart s with
  | EmptyString => True
  | String c _ => isWhiteSpace c = false
  end.
Proof.
  induction s as [|c s IH]; [done|]. cbn [trimStart].
  destruct (isWhiteSpace c) eqn:E; [done|]. exact E.
Qed.

Lemma trimEnd_head (c : ascii) (s : string) :
  isWhiteSpace c = false → ∃ r, trimEnd (String c s) = String c r.
Proof.
  intros H. cbn [trimEnd]. destruct (trimEnd s) as [|d r].
  - rewrite H. by eexists.
  - by eexists.
Qed.

Lemma trimEnd_post (s : string) :
  match lastChar (trimEnd s) with
  | Some d => isWhiteSpace d = false
  | None => trimEnd s = EmptyString
  end.
Proof.
  induction s as [|c s IH]; [done|]. cbn [trimEnd].
  destruct (trimEnd s) as [|d r].
  - destruct (isWhiteSpace c) eqn:E; [done|]. exact E.
  - change (lastChar (String c (String d r))) with (lastChar (String d r)).
    destruct (lastChar (String d r)); [exact IH|discriminate IH].
Qed.

Lemma trimEnd_fixed (s : string) :
  match lastChar s with
  | Some d => isWhiteSpace d = false
  | None => True
  end →
  trimEnd s = s.
Proof.
  induction s as [|c s IH]; [done|]. cbn [trimEnd]. destruct s as [|c' s].
  - cbn. by intros ->.
  - intros H. by rewrite (IH H).
Qed.

Lemma lastChar_app (a : string) (d : ascii) : lastChar (a +:+ String d EmptyString) = Some d.
Proof.
  induction a as [|c a IH]; [done|].
  change (lastChar (String c (a +:+ String d EmptyString)) = Some d).
  cbn [lastChar]. destruct (a +:+ String d EmptyString) eqn:E; [|done].
  by destruct a.
Qed.

Lemma trim_fixed (s : string) : cleanEdges s → trim s = s.
Proof.
  destruct s as [|c s]; [done|]. intros (Hc & d & Hlast & Hd).
  unfold trim. rewrite (trimStart_head c s Hc). apply trimEnd_fixed. by rewrite Hlast.
Qed.

Lemma trim_post (s : string) : cleanEdges (trim s).
Proof.
  unfold trim. pose proof (trimStart_post s) as H.
  destruct (trimStart s) as [|c t]; [done|].
  destruct (trimEnd_head c t H) as [r Hr].
  pose proof (trimEnd_post (String c t)) as Hpost. rewrite Hr in *.
  cbn [cleanEdges]. split; [done|].
  destruct (lastChar (String c r)) as [d|]; [by exists d|done].
Qed.

Lemma trim_idempotent (s : string) : trim (trim s) = trim s.
Proof. apply trim_fixed, trim_post. Qed.

End Trim.

(** ** extractTextFromNode *)

Section ExtractText.

Lemma concatStrings_app (l k : list string) :
  concatStrings (l ++ k) = concatStrings l +:+ concatStrings k.
Proof.
  induction l as [|x l IH]; [done|]. cbn [app concatStrings].
  by rewrite IH, string_app_assoc.
Qed.

Lemma AnyNode_nested_ind (P : AnyNode → Prop) :
  (∀ nodeType nodeValue childNodes,
      match childNodes with
      | Some kids => Forall P kids
      | None => True
      end →
      P (anyNode nodeType nodeValue childNodes)) →
  ∀ n, P n.
Proof.
  intros H. fix IH 1. intros [nodeType nodeValue childNodes]. apply H.
  destruct childNodes as [kids|]; [|exact I].
  induction kids as [|k kids IHkids]; constructor; [apply IH|exact IHkids].
Qed.

Lemma Node_nested_ind (P : Node → Prop) :
  (∀ tagName attrs kids, Forall P kids → P (Element tagName attrs kids)) →
  (∀ v, P (Text v)) → (∀ v, P (Comment v)) →
  ∀ n, P n.
Proof.
  intros HE HT HC. fix IH 1. intros [tagName attrs kids|v|v]; [|apply HT|apply HC].
  apply HE. induction kids as [|k kids IHkids]; constructor; [apply IH|exact IHkids].
Qed.

(** The walk appends the values of the text nodes, in document order, to
    what was collected before. *)
Lemma walk_values (n : AnyNode) :
  ∀ text, walk n text = text +:+ concatStrings (textNodeValues n).
Proof.
  induction n as [nodeType nodeValue childNodes IH] using AnyNode_nested_ind.
  intros text. cbn [walk textNodeValues]. rewrite concatStrings_app.
  set (text' := if nodeType =? 3 then text +:+ toStringNull nodeValue else text).
  assert (text' = text +:+ concatStrings (if nodeType =? 3 then [toStringNull nodeValue] else []))
    as Htext.
  { unfold text'. destruct (nodeType =? 3); cbn [concatStrings];
      by rewrite !string_app_nil_r. }
  destruct childNodes as [kids|].
  - rewrite <- string_app_assoc, <- Htext. clear Htext. generalize text'. clear text'.
    induction IH as [|k kids Hk _ IHkids]; intros acc.
    + by rewrite string_app_nil_r.
    + cbn [fold_left flat_map]. rewrite IHkids, Hk.
      by rewrite concatStrings_app, string_app_assoc.
  - cbn [concatStrings]. by rewrite string_app_nil_r.
Qed.

Lemma textNodeValues_ofNode (n : Node) :
  concatStrings (textNodeValues (ofNode n))
  = if isComment n then EmptyString else textContent n.
Proof.
  induction n as [tagName attrs kids IH|v|v] using Node_nested_ind;
    [|apply string_app_nil_r|done].
  cbn [ofNode textNodeValues isComment textContent]. change (1 =? 3) with false.
  cbn [app]. induction IH as [|k kids Hk _ IHkids]; [done|].
  cbn [map flat_map fold_right]. rewrite concatStrings_app, Hk, IHkids.
  by destruct k.
Qed.

End ExtractText.

(** ** Paragraphs and entries in closed form *)

Section ClosedForms.

Lemma lastChar_app_r (a b : string) :
  b ≠ EmptyString → lastChar (a +:+ b) = lastChar b.
Proof.
  intros Hb. induction a as [|c a IH]; [done|].
  change (lastChar (String c (a +:+ b)) = lastChar b). cbn [lastChar].
  destruct (a +:+ b) eqn:E; [|done]. destruct a; [by subst|discriminate E].
Qed.

Lemma cleanEdges_app (a b : string) : cleanEdges a → cleanEdges b → cleanEdges (a +:+ b).
Proof.
  destruct b as [|d b]; [by rewrite string_app_nil_r|].
  destruct a as [|c a]; [done|]. intros (Hc & _) (_ & e & Hlast & He).
  change (String c a +:+ String d b) with (String c (a +:+ String d b)).
  split; [done|]. exists e. split; [|done].
  by rewrite <- Hlast, <- (lastChar_app_r (String c a) (String d b)).
Qed.

Lemma cleanEdges_paragraphText (line : Node) : cleanEdges (paragraphText line).
Proof.
  unfold paragraphText.
  set (body := indentPrefix (indentLevel line) +:+ runsBody line).
  replace ("<p>" +:+ indentPrefix (indentLevel line) +:+ runsBody line +:+ "</p>")
    with (String "<" (("p>" +:+ body +:+ "</p") +:+ ">"))
    by (unfold body; by rewrite !string_app_assoc).
  split; [done|]. exists ">"%char. split; [|done].
  apply (lastChar_app (String "<" ("p>" +:+ body +:+ "</p")) ">").
Qed.

Lemma cleanEdges_paragraphs (lines : list Node) :
  cleanEdges (concatStrings (paragraphText <$> lines)).
Proof.
  induction lines as [|line lines IH]; [done|].
  rewrite fmap_cons. cbn [concatStrings].
  by apply cleanEdges_app; [apply cleanEdges_paragraphText|].
Qed.

Lemma formatLine_cases (line : Node) :
  formatLine line
  = if negativeIndent line then Throw RangeError else Ok (paragraphText line).
Proof.
  unfold negativeIndent. destruct (indentLevel line) as [|n] eqn:E.
  - apply formatLine_ok. by rewrite E.
  - destruct (Z.ltb_spec n 0) as [Hn|Hn].
    + by apply (formatLine_throw line n).
    + apply formatLine_ok. by rewrite E.
Qed.

Lemma formatLines_cases (lines : list Node) (acc : string) :
  formatLines lines acc
  = if existsb negativeIndent lines then Throw RangeError
    else Ok (acc +:+ concatStrings (paragraphText <$> lines)).
Proof.
  revert acc. induction lines as [|line lines IH]; intros acc.
  - cbn. by rewrite string_app_nil_r.
  - cbn [formatLines existsb]. rewrite formatLine_cases.
    destruct (negativeIndent line); [done|].
    rewrite result_bind_Ok, IH. cbn [orb].
    destruct (existsb negativeIndent lines); [done|].
    by rewrite fmap_cons, string_app_assoc.
Qed.

Lemma entryNotes_cases (entry : string * Document) :
  entryNotes entry
  = if existsb negativeIndent (entryLines entry) then Throw RangeError
    else Ok (recordFor entry).
Proof.
  destruct entry as [filename dom]. unfold entryNotes, entryLines, recordFor.
  fold (qualifies filename). fold (hasNotesBody dom).
  destruct (qualifies filename); [|done].
  destruct (hasNotesBody dom) as [body|]; [|done].
  rewrite formatLines_cases.
  destruct (existsb negativeIndent (getElementsByTagName "a:p" body)); [done|].
  rewrite result_bind_Ok. cbn [fmap option_fmap option_map].
  change (EmptyString +:+ ?s) with s.
  by rewrite (trim_fixed _ (cleanEdges_paragraphs _)).
Qed.

Lemma entriesNotes_cases (zip : Package) :
  entriesNotes zip
  = if existsb (λ entry, existsb negativeIndent (entryLines entry)) zip
    then Throw RangeError
    else Ok (omap recordFor zip).
Proof.
  induction zip as [|entry zip IH]; [done|].
  cbn [entriesNotes existsb omap list_omap]. rewrite entryNotes_cases, IH.
  destruct (existsb negativeIndent (entryLines entry)); [done|].
  rewrite result_bind_Ok. cbn [orb].
  destruct (existsb _ zip); [done|]. rewrite result_bind_Ok.
  by destruct (recordFor entry).
Qed.

End ClosedForms.

(** ** The captured slide number *)

Section SlideNumber.

Lemma list_ascii_app (a b : string) :
  list_ascii_of_string (a +:+ b) = list_ascii_of_string a ++ list_ascii_of_string b.
Proof.
  induction a as [|c a IH]; [done|].
  change (c :: list_ascii_of_string (a +:+ b)
          = c :: list_ascii_of_string a ++ list_ascii_of_string b).
  by rewrite IH.
Qed.

Lemma list_ascii_inj (a b : string) :
  list_ascii_of_string a = list_ascii_of_string b → a = b.
Proof.
  intros H. rewrite <- (string_of_list_ascii_of_string a), H.
  apply string_of_list_ascii_of_string.
Qed.

Lemma allDigits_Forall (ds : string) :
  allDigits ds = true → Forall (λ c, isDigit c = true) (list_ascii_of_string ds).
Proof.
  induction ds as [|c ds IH]; [constructor|]. cbn [allDigits].
  intros [Hc Hds]%andb_true_iff. constructor; [done|by apply IH].
Qed.

(** Digits that end a name after a non-digit are determined by the name. *)
Lemma digit_suffix_unique (x x' D D' : list ascii) (e : ascii) :
  isDigit e = false →
  Forall (λ c, isDigit c = true) D → Forall (λ c, isDigit c = true) D' →
  (x ++ [e]) ++ D = (x' ++ [e]) ++ D' → D = D'.
Proof.
  intros He HD HD' Heq.
  assert (∀ (y y' E E' : list ascii),
             Forall (λ c, isDigit c = true) E' →
             (∃ k, y ++ [e] = (y' ++ [e]) ++ k ∧ E' = k ++ E) → E' = E) as Hcase.
  { intros y y' E E' HE' (k & Hk & ->).
    destruct k as [|c k _] using rev_ind; [done|]. exfalso.
    rewrite app_assoc in Hk. apply app_inj_tail in Hk as [_ <-].
    rewrite !Forall_app, Forall_singleton in HE'. destruct HE' as [[_ Hc] _].
    congruence. }
  apply app_eq_inv in Heq as [H|H].
  - symmetry. by apply (Hcase x x' D D').
  - by apply (Hcase x' x D' D).
Qed.

Lemma capture_unique (pre pre' ds ds' : string) :
  digits ds → digits ds' →
  pre +:+ "notesSlide" +:+ ds +:+ ".xml" = pre' +:+ "notesSlide" +:+ ds' +:+ ".xml" →
  ds = ds'.
Proof.
  intros [Hds _] [Hds' _] Heq. apply list_ascii_inj.
  apply (f_equal list_ascii_of_string) in Heq.
  rewrite !list_ascii_app in Heq.
  change (list_ascii_of_string "notesSlide")
    with (list_ascii_of_string "notesSlid" ++ ["e"%char]) in Heq.
  rewrite !app_assoc in Heq. apply app_inv_tail in Heq.
  apply (digit_suffix_unique _ _ _ _ "e"%char) in Heq;
    [done|done|by apply allDigits_Forall..].
Qed.

Lemma slideMatch_complete (pre ds : string) :
  digits ds →
  RegExp.exec slideMatchAt (pre +:+ "notesSlide" +:+ ds +:+ ".xml") = Some ds.
Proof.
  intros Hds.
  destruct (RegExp.exec slideMatchAt _) as [ds'|] eqn:E.
  - apply slideMatch_Some in E as (pre' & Heq & Hds').
    f_equal. symmetry. by apply (capture_unique pre pre').
  - apply slideMatch_None in E. destruct E. by exists pre, ds.
Qed.

Lemma radixDigits_value (ds : string) (a : Z) :
  allDigits ds = true →
  radixDigits 10 ds (Some a)
  = Some (fold_left (λ a c, a * 10 + (code c - 48)) (list_ascii_of_string ds) a).
Proof.
  revert a. induction ds as [|c ds IH]; intros a Hds; [done|].
  cbn [allDigits] in Hds. apply andb_true_iff in Hds as [Hc Hds].
  cbn [radixDigits list_ascii_of_string fold_left]. rewrite (isDigit_value c Hc).
  apply isDigit_code in Hc.
  destruct (Z.ltb_spec (code c - 48) 10) as [_|?]; [|lia].
  by rewrite IH.
Qed.

Lemma parseInt_decimalValue (ds : string) :
  digits ds → parseInt ds (Some 10) = Num (decimalValue ds).
Proof.
  intros [Hds Hne]. destruct ds as [|c ds]; [done|]. clear Hne.
  unfold decimalValue.
  cbn [allDigits] in Hds. apply andb_true_iff in Hds as [Hc Hds].
  unfold parseInt. cbn [trimStart]. rewrite (isDigit_not_space c Hc).
  rewrite !(isDigit_not_char c) by done. unfold default. cbn [from_option id].
  change (negb (10 =? 0) && ((10 <? 2) || (36 <? 10))) with false.
  change ((10 =? 0) || (10 =? 16)) with false. cbn iota.
  change (if 10 =? 0 then 10 else 10) with 10.
  cbn [radixDigits list_ascii_of_string fold_left]. rewrite (isDigit_value c Hc).
  pose proof (proj1 (isDigit_code c) Hc) as Hcode.
  destruct (Z.ltb_spec (code c - 48) 10) as [_|?]; [|lia].
  rewrite (radixDigits_value ds _ Hds). cbn [from_option id].
  f_equal. lia.
Qed.


Lemma string_of_uint_value (d : uint) (a : Z) :
  fold_left (λ a c, a * 10 + (code c - 48))
            (list_ascii_of_string (NilEmpty.string_of_uint d)) a
  = uintValue d a.
Proof.
  revert a. induction d as [|d IH|d IH|d IH|d IH|d IH|d IH|d IH|d IH|d IH|d IH];
    intros a; [done|..];
    cbn [NilEmpty.string_of_uint list_ascii_of_string fold_left uintValue];
    rewrite IH; f_equal; vm_compute (code _); lia.
Qed.

Lemma string_of_uint_allDigits (d : uint) : allDigits (NilEmpty.string_of_uint d) = true.
Proof. induction d; cbn [NilEmpty.string_of_uint allDigits]; by rewrite ?IHd. Qed.

Lemma of_uint_acc_value (d : uint) (acc : positive) :
  Z.pos (Pos.of_uint_acc d acc) = uintValue d (Z.pos acc).
Proof.
  revert acc. induction d as [|d IH|d IH|d IH|d IH|d IH|d IH|d IH|d IH|d IH|d IH];
    intros acc; [done|..];
    cbn [Pos.of_uint_acc uintValue]; rewrite IH; f_equal; lia.
Qed.

Lemma of_uint_value (d : uint) : Z.of_N (N.of_uint d) = uintValue d 0.
Proof.
  unfold N.of_uint.
  induction d as [|d IH|d IH|d IH|d IH|d IH|d IH|d IH|d IH|d IH|d IH];
    [done|exact IH|..];
    cbn [Pos.of_uint uintValue Z.of_N]; by rewrite of_uint_acc_value.
Qed.

Lemma decimalOf_digits (n : N) : digits (decimalOf n).
Proof.
  split; [apply string_of_uint_allDigits|].
  unfold decimalOf. destruct n as [|p]; [done|].
  cbn [N.to_uint]. pose proof (DecimalPos.Unsigned.to_uint_nonnil p) as Hp.
  by destruct (Pos.to_uint p).
Qed.

Lemma decimalOf_value (n : N) : decimalValue (decimalOf n) = Z.of_N n.
Proof.
  unfold decimalValue, decimalOf.
  by rewrite string_of_uint_value, <- of_uint_value, DecimalN.Unsigned.of_to.
Qed.

End SlideNumber.

(** * Further properties of the code *)

(** X1. [extractTextFromNode] gives the empty string for a missing node,
    and otherwise the values of the nodes of type 3 at and below the node,
    concatenated in document order and trimmed. *)
Theorem extractTextFromNode_document_order :
  extractTextFromNode None = EmptyString
  ∧ ∀ n, extractTextFromNode (Some n) = trim (concatStrings (textNodeValues n)).
Proof.
  split; [done|]. intros n. unfold extractTextFromNode.
  by rewrite walk_values.
Qed.

(** X2. On a document tree whose character data are text nodes,
    [extractTextFromNode] agrees with the trimmed [textContent] for an
    element or a text node, and gives the empty string for a comment. *)
Theorem extractTextFromNode_textContent (n : Node) :
  extractTextFromNode (Some (ofNode n))
  = if isComment n then EmptyString else trim (textContent n).
Proof.
  rewrite (proj2 extractTextFromNode_document_order), textNodeValues_ofNode.
  by destruct (isComment n).
Qed.

(** X3. The result of [extractTextFromNode] has no white space at either
    end, and trimming it again changes nothing. *)
Theorem extractTextFromNode_trimmed (node : option AnyNode) :
  cleanEdges (extractTextFromNode node)
  ∧ trim (extractTextFromNode node) = extractTextFromNode node.
Proof.
  destruct node as [n|]; [|done]. unfold extractTextFromNode.
  split; [apply trim_post|apply trim_idempotent].
Qed.

(** X4. [formatLine] raises a [RangeError] whenever the level of the
    paragraph parses to a negative integer; when the level is not negative
    (or there is none) and the paragraph text fits a string, it returns
    the paragraph text: "<p>", the prefix of the level, one space and the
    formatted run for every run in order, "</p>". *)
Theorem formatLine_negative_level_or_paragraph (line : Node) :
  ((∃ n, indentLevel line = Num n ∧ n < 0) → formatLine line = Throw RangeError)
  ∧ (nonNegative (indentLevel line) → fitsString (paragraphText line) →
     formatLine line = Ok (paragraphText line)).
Proof.
  split.
  - intros (n & Hn & Hneg). by apply (formatLine_throw line n).
  - intros Hlevel _. by apply formatLine_ok.
Qed.

Lemma formatLine_negative_level_or_paragraph_witness :
  ((∃ n, indentLevel (mkLine (Some [("lvl", "-3")]) [mkRun [] "a"]) = Num n ∧ n < 0)
   ∧ formatLine (mkLine (Some [("lvl", "-3")]) [mkRun [] "a"]) = Throw RangeError)
  ∧ (nonNegative (indentLevel (mkLine (Some [("lvl", "1")]) [mkRun [] "a"]))
     ∧ fitsString (paragraphText (mkLine (Some [("lvl", "1")]) [mkRun [] "a"]))
     ∧ formatLine (mkLine (Some [("lvl", "1")]) [mkRun [] "a"]) = Ok "<p>&#9;&#x2022; a</p>").
Proof.
  assert (∃ n, indentLevel (mkLine (Some [("lvl", "-3")]) [mkRun [] "a"]) = Num n ∧ n < 0)
    as Hneg by (exists (-3); split; [reflexivity|lia]).
  assert (nonNegative (indentLevel (mkLine (Some [("lvl", "1")]) [mkRun [] "a"])))
    as Hpos by (vm_compute; discriminate).
  assert (fitsString (paragraphText (mkLine (Some [("lvl", "1")]) [mkRun [] "a"])))
    as Hfits by (vm_compute; discriminate).
  split.
  - split; [exact Hneg|].
    exact (proj1 (formatLine_negative_level_or_paragraph _) Hneg).
  - split; [exact Hpos|]. split; [exact Hfits|].
    exact (proj2 (formatLine_negative_level_or_paragraph
                    (mkLine (Some [("lvl", "1")]) [mkRun [] "a"])) Hpos Hfits).
Defined.

(** X5. The loop over the paragraphs of a notes body raises a
    [RangeError] whenever one of the paragraphs has a negative level; when
    none has and the text fits a string, it returns what was collected
    before followed by the paragraph texts in order, with no separator;
    and whenever it returns, that is what it returns. *)
Theorem formatLines_all_or_nothing (lines : list Node) (acc : string) :
  ((∃ line, line ∈ lines ∧ negativeIndent line = true) →
   formatLines lines acc = Throw RangeError)
  ∧ ((∀ line, line ∈ lines → negativeIndent line = false) →
     fitsString (acc +:+ concatStrings (paragraphText <$> lines)) →
     formatLines lines acc = Ok (acc +:+ concatStrings (paragraphText <$> lines)))
  ∧ (∀ text, formatLines lines acc = Ok text →
             text = acc +:+ concatStrings (paragraphText <$> lines)).
Proof.
  rewrite formatLines_cases.
  destruct (existsb negativeIndent lines) eqn:E.
  - apply existsb_exists in E as (line & Hin & Hneg). split; [done|]. split; [|done].
    intros Hall _. apply list_elem_of_In, Hall in Hin. congruence.
  - split; [|split; [done|by intros text [= <-]]].
    intros (line & Hin & Hneg). exfalso.
    assert (existsb negativeIndent lines = true) as E'; [|congruence].
    apply existsb_exists. exists line. by rewrite <- list_elem_of_In.
Qed.

Lemma formatLines_all_or_nothing_witness :
  ((∃ line, line ∈ [mkLine None [mkRun [] "a"]; mkLine (Some [("lvl", "-1")]) [mkRun [] "b"]]
            ∧ negativeIndent line = true)
   ∧ formatLines [mkLine None [mkRun [] "a"]; mkLine (Some [("lvl", "-1")]) [mkRun [] "b"]] "x"
     = Throw RangeError)
  ∧ ((∀ line, line ∈ [mkLine None [mkRun [] "a"]; mkLine (Some [("lvl", "1")]) [mkRun [] "b"]] →
              negativeIndent line = false)
     ∧ fitsString ("x" +:+ concatStrings
                             (paragraphText
                                <$> [mkLine None [mkRun [] "a"];
                                     mkLine (Some [("lvl", "1")]) [mkRun [] "b"]]))
     ∧ formatLines [mkLine None [mkRun [] "a"]; mkLine (Some [("lvl", "1")]) [mkRun [] "b"]] "x"
       = Ok "x<p> a</p><p>&#9;&#x2022; b</p>").
Proof.
  assert (∃ line, line ∈ [mkLine None [mkRun [] "a"];
                          mkLine (Some [("lvl", "-1")]) [mkRun [] "b"]]
                  ∧ negativeIndent line = true) as Hneg
    by (exists (mkLine (Some [("lvl", "-1")]) [mkRun [] "b"]); split; [right; left|reflexivity]).
  assert (∀ line, line ∈ [mkLine None [mkRun [] "a"];
                          mkLine (Some [("lvl", "1")]) [mkRun [] "b"]] →
                  negativeIndent line = false) as Hall.
  { intros line Hin.
    apply elem_of_cons in Hin as [->|Hin%list_elem_of_singleton]; [reflexivity|].
    subst line. reflexivity. }
  assert (fitsString ("x" +:+ concatStrings
                                (paragraphText
                                   <$> [mkLine None [mkRun [] "a"];
                                        mkLine (Some [("lvl", "1")]) [mkRun [] "b"]])))
    as Hfits by (vm_compute; discriminate).
  split.
  - split; [exact Hneg|].
    exact (proj1 (formatLines_all_or_nothing _ "x") Hneg).
  - split; [exact Hall|]. split; [exact Hfits|].
    exact (proj1 (proj2 (formatLines_all_or_nothing
                           [mkLine None [mkRun [] "a"];
                            mkLine (Some [("lvl", "1")]) [mkRun [] "b"]] "x")) Hall Hfits).
Defined.

Section Extraction.

Lemma extractNotes_cases (zip : Package) :
  extractNotes zip
  = if existsb (λ entry, existsb negativeIndent (entryLines entry)) zip
    then Throw RangeError
    else Ok (Array.sort compareSlides (omap recordFor zip)).
Proof.
  rewrite extractNotes_entries, entriesNotes_cases. by destruct (existsb _ zip).
Qed.

Lemma entryLines_elem (filename : string) (dom : Document) (line : Node) :
  line ∈ entryLines (filename, dom)
  ↔ qualifies filename = true
    ∧ ∃ body, hasNotesBody dom = Some body ∧ line ∈ getElementsByTagName "a:p" body.
Proof.
  unfold entryLines. destruct (qualifies filename).
  - destruct (hasNotesBody dom) as [body|].
    + split; [intros H; split; [done|by exists body]|by intros (_ & ? & [= <-] & ?)].
    + split; [by intros ?%elem_of_nil|by intros (_ & ? & ? & _)].
  - split; [by intros ?%elem_of_nil|by intros (? & _)].
Qed.

Lemma omap_recordFor_length (zip : Package) :
  length (omap recordFor zip) = length (List.filter contributes zip).
Proof.
  induction zip as [|[filename dom] zip IH]; [done|].
  cbn [omap list_omap List.filter]. unfold contributes at 1, recordFor at 1. cbn [fst snd].
  destruct (qualifies filename); [|exact IH].
  destruct (hasNotesBody dom) as [body|]; cbn [fmap option_fmap option_map andb].
  - rewrite bool_decide_eq_true_2 by done. cbn [length]. by rewrite IH.
  - rewrite bool_decide_eq_false_2 by (by intros [? ?]). exact IH.
Qed.

End Extraction.

(** X6. One paragraph with a negative level, in the notes body of any
    qualifying entry, makes [extractNotes] return nothing: no record comes
    out for any slide, the records of the other entries included. *)
Theorem extractNotes_negative_level_returns_nothing (zip : Package) :
  (∃ filename dom body line,
      (filename, dom) ∈ zip ∧ qualifies filename = true
      ∧ hasNotesBody dom = Some body
      ∧ line ∈ getElementsByTagName "a:p" body ∧ negativeIndent line = true) →
  ∀ out, extractNotes zip ≠ Ok out.
Proof.
  intros (filename & dom & body & line & Hin & Hq & Hb & Hl & Hneg) out.
  rewrite extractNotes_cases.
  assert (existsb (λ entry, existsb negativeIndent (entryLines entry)) zip = true) as ->;
    [|done].
  apply existsb_exists. exists (filename, dom). split; [by apply list_elem_of_In|].
  apply existsb_exists. exists line. split; [|done].
  apply list_elem_of_In, entryLines_elem. split; [done|by exists body].
Qed.

Lemma extractNotes_negative_level_returns_nothing_witness :
  (∃ filename dom body line,
      (filename, dom) ∈ packageNegative ∧ qualifies filename = true
      ∧ hasNotesBody dom = Some body
      ∧ line ∈ getElementsByTagName "a:p" body ∧ negativeIndent line = true)
  ∧ ∀ out, extractNotes packageNegative ≠ Ok out.
Proof.
  assert (∃ filename dom body line,
             (filename, dom) ∈ packageNegative ∧ qualifies filename = true
             ∧ hasNotesBody dom = Some body
             ∧ line ∈ getElementsByTagName "a:p" body ∧ negativeIndent line = true) as H.
  { eexists "ppt/notesSlides/notesSlide3.xml", _, _,
      (mkLine (Some [("lvl", "-1")]) [mkRun [] "bad"]).
    split; [right; right; left|]. split; [reflexivity|]. split; [reflexivity|].
    split; [right; left|reflexivity]. }
  split; [exact H|].
  exact (extractNotes_negative_level_returns_nothing packageNegative H).
Defined.

(** X7. When [extractNotes] returns, its result is the sorted list of one
    record per qualifying entry with a notes body, in which the notes are
    the paragraph texts of the body concatenated in document order: the
    call of [trim] removes nothing. *)
Theorem extractNotes_one_record_per_body (zip : Package) (out : list SlideNotes) :
  extractNotes zip = Ok out →
  out = Array.sort compareSlides (omap recordFor zip)
  ∧ length out = length (List.filter contributes zip).
Proof.
  rewrite extractNotes_cases. destruct (existsb _ zip); [done|]. intros [= <-].
  split; [done|]. by rewrite sort_perm, omap_recordFor_length.
Qed.

Lemma extractNotes_one_record_per_body_witness :
  extractNotes packageMixed
  = Ok [{| slide := Num (-1); notes := "<p> seven</p>" |};
        {| slide := Num 2; notes := "<p> two</p>" |};
        {| slide := Num 10; notes := "<p> ten</p>" |}]
  ∧ [{| slide := Num (-1); notes := "<p> seven</p>" |};
     {| slide := Num 2; notes := "<p> two</p>" |};
     {| slide := Num 10; notes := "<p> ten</p>" |}]
    = Array.sort compareSlides (omap recordFor packageMixed)
  ∧ 3%nat = length (List.filter contributes packageMixed).
Proof.
  split; [reflexivity|].
  exact (extractNotes_one_record_per_body packageMixed _ eq_refl).
Defined.

(** X8. For a name whose captured digits, if any, are at most 308 (so
    that they denote a finite number), the slide number is an integer, not
    below -1, and it is -1 exactly when the name does not end in the
    numbered pattern; so it is for every record [extractNotes] returns
    from a package of such names. *)
Theorem slide_number_range :
  (∀ filename,
      (∀ ds, RegExp.exec slideMatchAt filename = Some ds → finiteDigits ds) →
      ∃ n, slideNumberOf filename = Num n ∧ -1 ≤ n
           ∧ (n = -1 ↔ RegExp.exec slideMatchAt filename = None))
  ∧ (∀ (zip : Package) out r,
       (∀ filename dom ds, (filename, dom) ∈ zip →
                           RegExp.exec slideMatchAt filename = Some ds → finiteDigits ds) →
       extractNotes zip = Ok out → r ∈ out →
       ∃ n, slide r = Num n ∧ -1 ≤ n).
Proof.
  split.
  - intros filename _. unfold slideNumberOf.
    destruct (RegExp.exec slideMatchAt filename) as [ds|] eqn:E.
    + apply slideMatch_Some in E as (pre & _ & Hds).
      destruct (parseInt_digits ds Hds) as (n & -> & Hn).
      exists n. split; [done|]. split; [lia|]. split; [lia|done].
    + by exists (-1).
  - intros zip out r _ (ns & Hns & ->)%extractNotes_Ok Hr.
    rewrite sort_perm in Hr. apply list_elem_of_split in Hr as (l1 & l2 & ->).
    assert (∀ zip ns, entriesNotes zip = Ok ns →
                      Forall (λ r, ∃ n, slide r = Num n ∧ -1 ≤ n) ns) as Hall.
    { clear. intros zip. induction zip as [|entry zip IH]; intros ns.
      - intros [= <-]. constructor.
      - intros (o & rest & Ho & Hrest & ->)%entriesNotes_cons_Ok.
        apply Forall_app. split; [|by apply IH].
        destruct o as [r|]; [|constructor].
        constructor; [|constructor]. by apply (entryNotes_isInt entry). }
    apply Hall in Hns. rewrite Forall_app, Forall_cons in Hns. by destruct Hns as (_ & ? & _).
Qed.

Lemma slide_number_range_witness :
  ((∀ ds, RegExp.exec slideMatchAt "ppt/notesSlides/notesSlide12.xml" = Some ds →
          finiteDigits ds)
   ∧ ∃ n, slideNumberOf "ppt/notesSlides/notesSlide12.xml" = Num n ∧ -1 ≤ n
          ∧ (n = -1 ↔ RegExp.exec slideMatchAt "ppt/notesSlides/notesSlide12.xml" = None))
  ∧ ((∀ filename dom ds, (filename, dom) ∈ packageMixed →
                         RegExp.exec slideMatchAt filename = Some ds → finiteDigits ds)
     ∧ extractNotes packageMixed
       = Ok [{| slide := Num (-1); notes := "<p> seven</p>" |};
             {| slide := Num 2; notes := "<p> two</p>" |};
             {| slide := Num 10; notes := "<p> ten</p>" |}]
     ∧ {| slide := Num 2; notes := "<p> two</p>" |}
         ∈ [{| slide := Num (-1); notes := "<p> seven</p>" |};
            {| slide := Num 2; notes := "<p> two</p>" |};
            {| slide := Num 10; notes := "<p> ten</p>" |}]
     ∧ ∃ n, Num 2 = Num n ∧ -1 ≤ n).
Proof.
  assert (∀ ds, RegExp.exec slideMatchAt "ppt/notesSlides/notesSlide12.xml" = Some ds →
                finiteDigits ds) as Hone.
  { intros ds H. vm_compute in H. injection H as <-. unfold finiteDigits. cbn. lia. }
  assert (∀ filename dom ds, (filename, dom) ∈ packageMixed →
                             RegExp.exec slideMatchAt filename = Some ds → finiteDigits ds)
    as Hall.
  { intros filename dom ds Hin H. unfold packageMixed in Hin.
    repeat (apply elem_of_cons in Hin as [[= -> ->]|Hin];
            [vm_compute in H; first [discriminate H|injection H as <-];
             unfold finiteDigits; cbn; lia|]).
    by apply elem_of_nil in Hin. }
  assert ({| slide := Num 2; notes := "<p> two</p>" |}
            ∈ [{| slide := Num (-1); notes := "<p> seven</p>" |};
               {| slide := Num 2; notes := "<p> two</p>" |};
               {| slide := Num 10; notes := "<p> ten</p>" |}]) as Hin by (right; left).
  split.
  - split; [exact Hone|].
    exact (proj1 slide_number_range "ppt/notesSlides/notesSlide12.xml" Hone).
  - split; [exact Hall|]. split; [reflexivity|]. split; [exact Hin|].
    exact (proj2 slide_number_range packageMixed _ _ Hall eq_refl Hin).
Defined.

(** X9. An entry whose name ends in notesSlide, decimal digits and .xml
    qualifies, whatever precedes the token, and when the digits denote a
    number up to 2^53 (leading zeros allowed) it gets that number; for a
    natural number up to 2^53 printed in decimal, that is the number
    itself. *)
Theorem slide_number_of_numbered_name (dir : string) :
  (∀ ds, digits ds → qualifies (dir +:+ "notesSlide" +:+ ds +:+ ".xml") = true)
  ∧ (∀ ds, digits ds → decimalValue ds ≤ maxExactInteger →
     slideNumberOf (dir +:+ "notesSlide" +:+ ds +:+ ".xml") = Num (decimalValue ds))
  ∧ (∀ n : N, (n ≤ 2 ^ 53)%N →
     slideNumberOf (dir +:+ "notesSlide" +:+ decimalOf n +:+ ".xml") = Num (Z.of_N n)).
Proof.
  assert (∀ ds, digits ds →
            slideNumberOf (dir +:+ "notesSlide" +:+ ds +:+ ".xml") = Num (decimalValue ds))
    as Hnum.
  { intros ds Hds. unfold slideNumberOf.
    by rewrite (slideMatch_complete dir ds Hds), parseInt_decimalValue. }
  split; [|split].
  - intros ds Hds.
    apply qualifies_spec. destruct Hds as [Hall Hne].
    destruct ds as [|d ds]; [done|]. cbn [allDigits] in Hall.
    apply andb_true_iff in Hall as [Hd _].
    by exists dir, "notesSlide", d, (ds +:+ ".xml").
  - intros ds Hds _. by apply Hnum.
  - intros n _. by rewrite (Hnum _ (decimalOf_digits n)), decimalOf_value.
Qed.

Lemma slide_number_of_numbered_name_witness :
  (digits "007"
   ∧ qualifies ("ppt/notesSlides/" +:+ "notesSlide" +:+ "007" +:+ ".xml") = true)
  ∧ (decimalValue "007" ≤ maxExactInteger
     ∧ slideNumberOf ("ppt/notesSlides/" +:+ "notesSlide" +:+ "007" +:+ ".xml") = Num 7)
  ∧ ((1234 ≤ 2 ^ 53)%N
     ∧ slideNumberOf ("ppt/notesSlides/" +:+ "notesSlide" +:+ decimalOf 1234 +:+ ".xml")
       = Num 1234).
Proof.
  assert (digits "007") as Hds by (split; [reflexivity|discriminate]).
  assert (decimalValue "007" ≤ maxExactInteger) as Hval by (vm_compute; discriminate).
  assert (1234 ≤ 2 ^ 53)%N as Hle by (vm_compute; discriminate).
  split; [|split].
  - split; [exact Hds|].
    exact (proj1 (slide_number_of_numbered_name "ppt/notesSlides/") "007" Hds).
  - split; [exact Hval|].
    exact (proj1 (proj2 (slide_number_of_numbered_name "ppt/notesSlides/")) "007" Hds Hval).
  - split; [exact Hle|].
    exact (proj2 (proj2 (slide_number_of_numbered_name "ppt/notesSlides/")) 1234%N Hle).
Defined.

(** ** The script *)

Import Script.

Ltac elem_cases H :=
  repeat (apply elem_of_cons in H as [H|H]; [try discriminate H|]);
  try (apply elem_of_nil in H; destruct H).

Section ScriptFacts.

(** The one shape of a run of [main] that reaches the conversion. *)
Lemma main_exec (h : Host) (inputPath outputPath notesFile pdfFile cmd : string) :
  Exec cmd ∈ main h inputPath outputPath notesFile pdfFile →
  ∃ notes tail,
    main h inputPath outputPath notesFile pdfFile
    = WriteNotes notesFile notes :: LogNotesWritten notesFile :: LogConverting
        :: Exec cmd :: tail
    ∧ StronglySorted slideLe notes
    ∧ writeFileSync h notesFile notes = None
    ∧ match exec h cmd with
      | (Some message, _) => tail = [LogError (Rejection ("LibreOffice error: " +:+ message))]
      | (None, stdout) =>
          ∃ rest, tail = LogStdout stdout :: rest
                  ∧ Forall (λ ev, ∀ err, ev ≠ LogError (Rejection err)) rest
      end.
Proof.
  unfold main.
  destruct (readFileSync h inputPath) as [?|data]; [intros H; elem_cases H|].
  destruct (loadAsync h data) as [?|zip]; [intros H; elem_cases H|].
  destruct (extractNotes zip) as [notes|e] eqn:E; [|intros H; elem_cases H].
  destruct (writeFileSync h notesFile notes) eqn:W; [intros H; elem_cases H|].
  unfold convertToPdf.
  set (cmd0 := "libreoffice --headless --convert-to pdf " +:+ quote +:+ inputPath +:+ quote
               +:+ " --outdir " +:+ quote +:+ outputPath +:+ quote).
  destruct (exec h cmd0) as [[message|] stdout] eqn:X; cbn [fst snd app].
  - intros H. elem_cases H. injection H as ->.
    eexists notes, _. split; [done|]. split; [by apply (extractNotes_sorted zip)|].
    split; [done|]. by rewrite X.
  - intros H.
    assert (cmd = cmd0) as ->.
    { destruct (generatedExists h _); [destruct (renameSync h _ _)|];
        elem_cases H; by injection H. }
    eexists notes, _. split; [done|]. split; [by apply (extractNotes_sorted zip)|].
    split; [done|]. rewrite X. eexists. split; [done|].
    destruct (generatedExists h _); [destruct (renameSync h _ _)|];
      repeat constructor; done.
Qed.

(** [main] neither prints the usage line, nor exits, nor creates a
    directory, nor lets anything escape. *)
Lemma main_effects (h : Host) (inputPath outputPath notesFile pdfFile : string) :
  Forall (λ ev, match ev with
                | PrintUsage | Exit _ | Mkdir _ | Uncaught _ => False
                | _ => True
                end)
         (main h inputPath outputPath notesFile pdfFile).
Proof.
  unfold main, convertToPdf.
  destruct (readFileSync h inputPath) as [?|data]; [by repeat constructor|].
  destruct (loadAsync h data) as [?|zip]; [by repeat constructor|].
  destruct (extractNotes zip) as [notes|e]; [|by repeat constructor].
  destruct (writeFileSync h notesFile notes); [by repeat constructor|].
  destruct (exec h _) as [[message|] stdout]; cbn [fst snd app];
    [by repeat constructor|].
  destruct (generatedExists h _); [destruct (renameSync h _ _)|];
    by repeat constructor.
Qed.

(** A run of the script past the argument check is a run of [main],
    possibly after the creation of the output directory, unless that
    creation fails. *)
Lemma script_shape (h : Host) (node file inputPath : string) (rest : list string) :
  ∃ outputPath,
    let run := main h inputPath outputPath (join h outputPath "notes.json")
                 (join h outputPath "slides.pdf") in
    script h (node :: file :: inputPath :: rest) = run
    ∨ script h (node :: file :: inputPath :: rest) = Mkdir outputPath :: run
    ∨ ∃ message,
        script h (node :: file :: inputPath :: rest)
        = [Mkdir outputPath; Uncaught (HostFailure message)].
Proof.
  cbn [script].
  set (outputPath := if truthyStr (head rest) then _ else _).
  exists outputPath. cbn zeta.
  destruct (outputDirExists h outputPath); [by left|].
  destruct (mkdirSync h outputPath) as [message|]; [|by right; left].
  right; right. by exists message.
Qed.

End ScriptFacts.

(** X10. The conversion command is run only after the notes were written
    successfully: in every run in which [exec] is called, the call that
    writes notes.json comes earlier, it did not fail, and the notes it
    wrote are sorted by slide number. *)
Theorem script_converts_after_notes_written (h : Host) (argv : list string) (cmd : string) :
  Exec cmd ∈ script h argv →
  ∃ path notes,
    precedes (WriteNotes path notes) (Exec cmd) (script h argv)
    ∧ writeFileSync h path notes = None
    ∧ StronglySorted slideLe notes.
Proof.
  destruct argv as [|node [|file [|inputPath rest]]];
    try (intros H; cbn in H; by elem_cases H).
  destruct (script_shape h node file inputPath rest) as (outputPath & Hshape).
  cbn zeta in Hshape. destruct Hshape as [->| [->|(message & ->)]].
  - intros (notes & tail & Hmain & Hsorted & Hwrite & _)%main_exec.
    exists (join h outputPath "notes.json"), notes. split; [|done].
    exists [], [LogNotesWritten (join h outputPath "notes.json"); LogConverting], tail.
    by rewrite Hmain.
  - intros H. apply elem_of_cons in H as [H|H]; [discriminate H|].
    apply main_exec in H as (notes & tail & Hmain & Hsorted & Hwrite & _).
    exists (join h outputPath "notes.json"), notes. split; [|done].
    exists [Mkdir outputPath],
      [LogNotesWritten (join h outputPath "notes.json"); LogConverting], tail.
    by rewrite Hmain.
  - intros H. elem_cases H.
Qed.

Lemma script_converts_after_notes_written_witness :
  Exec ("libreoffice --headless --convert-to pdf " +:+ quote +:+ "deck.pptx" +:+ quote
        +:+ " --outdir " +:+ quote +:+ "/work/out" +:+ quote)
    ∈ script (sampleHost packageTwoTen None) ["node"; "convert.js"; "deck.pptx"; "out"]
  ∧ ∃ path notes,
      precedes (WriteNotes path notes)
        (Exec ("libreoffice --headless --convert-to pdf " +:+ quote +:+ "deck.pptx" +:+ quote
               +:+ " --outdir " +:+ quote +:+ "/work/out" +:+ quote))
        (script (sampleHost packageTwoTen None) ["node"; "convert.js"; "deck.pptx"; "out"])
      ∧ writeFileSync (sampleHost packageTwoTen None) path notes = None
      ∧ StronglySorted slideLe notes.
Proof.
  assert (Exec ("libreoffice --headless --convert-to pdf " +:+ quote +:+ "deck.pptx" +:+ quote
                +:+ " --outdir " +:+ quote +:+ "/work/out" +:+ quote)
            ∈ script (sampleHost packageTwoTen None) ["node"; "convert.js"; "deck.pptx"; "out"])
    as Hin by (vm_compute; do 4 right; left).
  split; [exact Hin|].
  exact (script_converts_after_notes_written _ _ _ Hin).
Defined.



(** X12. When the conversion command fails, the notes file has been
    written before and stays: the script logs the rejection, whose reason
    is the message of the error after "LibreOffice error: ", and renames
    nothing. *)
Theorem script_conversion_failure_keeps_notes
    (h : Host) (argv : list string) (cmd message stdout : string) :
  Exec cmd ∈ script h argv → exec h cmd = (Some message, stdout) →
  (∃ path notes,
      precedes (WriteNotes path notes)
        (LogError (Rejection ("LibreOffice error: " +:+ message))) (script h argv)
      ∧ writeFileSync h path notes = None)
  ∧ ∀ oldPath newPath, Rename oldPath newPath ∉ script h argv.
Proof.
  destruct argv as [|node [|file [|inputPath rest]]];
    try (intros H; cbn in H; by elem_cases H).
  destruct (script_shape h node file inputPath rest) as (outputPath & Hshape).
  cbn zeta in Hshape. destruct Hshape as [->| [->|(msg & ->)]].
  - intros (notes & tail & Hmain & _ & Hwrite & Htail)%main_exec Hexec.
    rewrite Hexec in Htail. subst tail. rewrite Hmain. split.
    + exists (join h outputPath "notes.json"), notes. split; [|done].
      by exists [], [LogNotesWritten (join h outputPath "notes.json"); LogConverting; Exec cmd], [].
    + intros oldPath newPath H. elem_cases H.
  - intros H Hexec. apply elem_of_cons in H as [H|H]; [discriminate H|].
    apply main_exec in H as (notes & tail & Hmain & _ & Hwrite & Htail).
    rewrite Hexec in Htail. subst tail. rewrite Hmain. split.
    + exists (join h outputPath "notes.json"), notes. split; [|done].
      by exists [Mkdir outputPath],
        [LogNotesWritten (join h outputPath "notes.json"); LogConverting; Exec cmd], [].
    + intros oldPath newPath H. elem_cases H.
  - intros H. elem_cases H.
Qed.

Lemma script_conversion_failure_keeps_notes_witness :
  Exec ("libreoffice --headless --convert-to pdf " +:+ quote +:+ "deck.pptx" +:+ quote
        +:+ " --outdir " +:+ quote +:+ "/work" +:+ quote)
    ∈ script (sampleHost packageTwoTen (Some "not found")) ["node"; "convert.js"; "deck.pptx"]
  ∧ exec (sampleHost packageTwoTen (Some "not found"))
      ("libreoffice --headless --convert-to pdf " +:+ quote +:+ "deck.pptx" +:+ quote
       +:+ " --outdir " +:+ quote +:+ "/work" +:+ quote)
    = (Some "not found", "done")
  ∧ ∀ oldPath newPath,
      Rename oldPath newPath
        ∉ script (sampleHost packageTwoTen (Some "not found")) ["node"; "convert.js"; "deck.pptx"].
Proof.
  assert (Exec ("libreoffice --headless --convert-to pdf " +:+ quote +:+ "deck.pptx" +:+ quote
                +:+ " --outdir " +:+ quote +:+ "/work" +:+ quote)
            ∈ script (sampleHost packageTwoTen (Some "not found"))
                ["node"; "convert.js"; "deck.pptx"])
    as Hin by (vm_compute; do 4 right; left).
  split; [exact Hin|]. split; [reflexivity|].
  exact (proj2 (script_conversion_failure_keeps_notes _ _ _ "not found" "done" Hin eq_refl)).
Defined.

(** X13. The script calls [process.exit] exactly when it is given fewer
    than three arguments, and then with code 1 after the usage line; no
    failure of reading, unpacking, extraction or conversion makes it
    exit. *)
Theorem script_exits_only_on_missing_argument (h : Host) (argv : list string) (code : Z) :
  Exit code ∈ script h argv ↔ (length argv < 3)%nat ∧ code = 1.
Proof.
  destruct argv as [|node [|file [|inputPath rest]]];
    try (cbn; split;
         [intros H; elem_cases H; injection H as ->; split; [lia|done]
         |intros [_ ->]; right; left]).
  split; [|cbn [length]; lia]. intros H. exfalso.
  destruct (script_shape h node file inputPath rest) as (outputPath & Hshape).
  cbn zeta in Hshape.
  pose proof (main_effects h inputPath outputPath (join h outputPath "notes.json")
                (join h outputPath "slides.pdf")) as Hmain.
  rewrite Forall_forall in Hmain.
  destruct Hshape as [Hs| [Hs|(message & Hs)]]; rewrite Hs in H.
  - by apply Hmain in H.
  - apply elem_of_cons in H as [H|H]; [discriminate H|]. by apply Hmain in H.
  - elem_cases H.
Qed.

Lemma script_exits_only_on_missing_argument_witness :
  ((length ["node"; "convert.js"] < 3)%nat ∧ 1 = 1)
  ∧ Exit 1 ∈ script (sampleHost packageTwoTen None) ["node"; "convert.js"].
Proof.
  assert ((length ["node"; "convert.js"] < 3)%nat ∧ 1 = 1) as H by (split; [cbn; lia|done]).
  split; [exact H|].
  exact (proj2 (script_exits_only_on_missing_argument
                  (sampleHost packageTwoTen None) ["node"; "convert.js"] 1) H).
Defined.
